(** * MissedTask front end: chat message / notification reconciliation

A shallow embedding of the chat bookkeeping of the MissedTask single-page
application, and the properties of it that the specification states.

Sources embedded here:
- [App] (src/unnamed/part_000): [showToast], [removeToast],
  [addNotification], [markNotificationAsRead],
  [markAllNotificationsAsRead], the 401 branch of [apiCall], the
  [onmessage] handler installed by [connectWebSocket], [logout],
  [getOrCreateConversation], [loadConversationMessages], [sendMessageAPI],
  the interval of the poll effect and the click handlers of the floating
  chat button and of the close button of the popup;
- [Chat] (src/src/components/Chat.tsx): [loadMessages], the handler
  installed by [connectSocket], [sendMessage], [deleteMessage],
  [createConversation];
- [EnhancedChat] (src/src/components/EnhancedChat.tsx): [handleMessage].

Conventions of the embedding.
- React state is a record.  React runs an updater function passed to a
  state setter when it next renders, or at the call while the component
  has no update pending; for the state only the order of the calls counts,
  so the record is updated in program order.  The one place where the
  source looks at a side effect of an updater between the calls, the array
  [newNotifications] of [loadConversationMessages], takes how far React
  has run the updaters from the [Clock] reading of the operation.
- Variables that a function reads from its closure ([showChatPopup],
  [user], [users]) are read from the state record the function is applied
  to.  In a sequence of operations a call of [loadConversationMessages]
  from a handler ([Reconcile]) reads the current values, while the interval
  of the poll effect ([Poll]) keeps calling the function of the render that
  started it: its values of [showChatPopup] and [user] are given with the
  operation.
- [apiCall] changes the state in one case only, before it throws on an
  answer with status 401: [App.sessionExpired].  The functions that await
  it are embedded from the point where it has settled.
- [Date.now().toString()] and [new Date().toISOString()] are the first two
  fields of a [Clock] reading handed to the operation.
- An optional or possibly missing JavaScript string is an [option string];
  [None] stands for a field that is missing ([undefined]).  Strings are
  compared the way JavaScript compares them: code unit by code unit
  ([String.ltb]).
- [localStorage] is a finite map from keys to strings.
- Message, user and conversation identifiers are strings, as the
  TypeScript interfaces of the sources declare them. *)

From stdpp Require Import gmap strings list fin_maps.

(** ** JavaScript helpers *)

(** Truthiness of an optional string: [undefined], [null] and [''] are falsy. *)
Definition truthy (v : option string) : bool :=
  match v with
  | Some s => if decide (s = "") then false else true
  | None => false
  end.

(** [a || b] on optional strings. *)
Definition js_or (a b : option string) : option string :=
  if truthy a then a else b.

(** [a || 'literal'], whose result is always a string. *)
Definition js_or_default (a : option string) (d : string) : string :=
  match a with
  | Some s => if decide (s = "") then d else s
  | None => d
  end.

(** [s.length > n ? s.substring(0, n) + '...' : s] *)
Definition preview (n : nat) (s : string) : string :=
  if decide (n < String.length s) then String.substring 0 n s +:+ "..." else s.

(** What one operation takes from its surroundings: the two clock readings
    and, for the updater functions that the loop of
    [loadConversationMessages] hands to [setNotifications], how many of them
    React has run when the function goes on after the loop ([updatersRun]),
    and how many more when it runs the updater of the unread counter
    ([updatersRunLater]).  Each updater is run once. *)
Record Clock := {
  nowMs : string;
  nowISO : string;
  updatersRun : nat;
  updatersRunLater : nat
}.

(** What an awaited [apiCall] ends with: the parsed answer, or the value it
    throws.  What [apiCall] does to the state before it throws is not part
    of the result (see [App.sessionExpired]). *)
Inductive Thrown :=
| ErrorObject (message : string)
| OtherValue (message : option string) (asString : string).

Inductive ApiResult (A : Type) :=
| Resolved (response : A)
| Rejected (error : Thrown).
Arguments Resolved {A} response.
Arguments Rejected {A} error.

(** [error.message || fallback] *)
Definition errorMessageOr (e : Thrown) (fallback : string) : string :=
  match e with
  | ErrorObject m => js_or_default (Some m) fallback
  | OtherValue m _ => js_or_default m fallback
  end.

(** [error instanceof Error ? error.message : String(error)] *)
Definition errorText (e : Thrown) : string :=
  match e with
  | ErrorObject m => m
  | OtherValue _ s => s
  end.

(** ** Messages as the backend sends them *)

Module Author.
Record t := mk { name : option string; id : option string; avatar : option string }.
End Author.

(** One record for the message shapes the backend uses: the sender may be
    given as [sender_*], as [author_*] or nested under [author]. *)
Module RawMessage.
Record t := mk {
  id : string;
  content : string;
  created_at : option string;
  conversation_id : option string;
  sender_id : option string;
  sender_name : option string;
  sender_avatar : option string;
  author_id : option string;
  author_name : option string;
  author_avatar : option string;
  author : option Author.t;
  recipient_id : option string
}.
End RawMessage.

(** [GET /conversations/{id}/messages] answers an array or an object with a
    [messages] field. *)
Inductive MessagesResponse :=
| RespArray (items : list RawMessage.t)
| RespObject (messages : option (list RawMessage.t)).

(** [Array.isArray(response) ? response : response.messages || []] *)
Definition responseMessages (response : MessagesResponse) : list RawMessage.t :=
  match response with
  | RespArray items => items
  | RespObject messages => default [] messages
  end.

(** The parsed [data] of a WebSocket event, by its [type] discriminator. *)
Inductive WsData :=
| chat_message (message : option RawMessage.t)
| user_typing (user_id : string)
| user_online (user_id : string)
| user_offline (user_id : string)
| message_deleted (message_id : string)
| new_team_message (message : RawMessage.t)
| new_personal_message (message : RawMessage.t)
| other_type (type : option string).

(** A WebSocket message event: [None] when [JSON.parse(event.data)] throws. *)
Definition MessageEvent := option WsData.

(** ** The application component *)

Module App.

Module User.
Record t := mk { id : string; name : string; avatar : string }.
End User.

Inductive ToastType := success | error | warning | info.

Module Toast.
Record t := mk { id : string; type : ToastType; title : string; message : string }.
End Toast.

Inductive NotificationType :=
| issue_created | issue_updated | issue_assigned | comment_added
| status_changed | user_joined | new_message.

Global Instance NotificationType_eq_dec : EqDecision NotificationType.
Proof. solve_decision. Defined.

(** The [data] payload of a notification: the poll path stores
    [{ conversationId, messageId }], the WebSocket path stores
    [{ message_id, sender_id, conversation_id }]. *)
Inductive NotificationData :=
| NoData
| MessageRef (conversationId messageId : string)
| PushRef (message_id : string) (sender_id conversation_id : option string).

(** [n.data?.conversationId] *)
Definition data_conversationId (d : NotificationData) : option string :=
  match d with
  | MessageRef c _ => Some c
  | _ => None
  end.

Module Notification.
Record t := mk {
  id : string;
  type : NotificationType;
  title : string;
  message : string;
  read : bool;
  timestamp : string;
  data : NotificationData
}.
(** [{ ...n, read: true }] *)
Definition markRead (n : t) : t :=
  mk (id n) (type n) (title n) (message n) true (timestamp n) (data n).
End Notification.

(** [Omit<Notification, 'id' | 'timestamp'>] *)
Module NotificationInput.
Record t := mk {
  type : NotificationType;
  title : string;
  message : string;
  read : bool;
  data : NotificationData
}.
End NotificationInput.

(** An entry of [chatMessages]; its [recipientId] is always [undefined]. *)
Module ChatMessage.
Record t := mk {
  id : string;
  user : string;
  userId : string;
  message : string;
  timestamp : option string;
  avatar : string
}.
End ChatMessage.

Record State := mkState {
  user : option User.t;
  users : list User.t;
  toasts : list Toast.t;
  notifications : list Notification.t;
  showChatPopup : bool;
  selectedConversationId : option string;
  conversations : gmap string (list ChatMessage.t);
  chatMessages : list ChatMessage.t;
  unreadMessagesCount : nat;
  localStorage : gmap string string
}.

Definition setToasts (f : list Toast.t → list Toast.t) (st : State) : State :=
  mkState (user st) (users st) (f (toasts st)) (notifications st)
    (showChatPopup st) (selectedConversationId st) (conversations st)
    (chatMessages st) (unreadMessagesCount st) (localStorage st).

Definition setNotifications (f : list Notification.t → list Notification.t)
    (st : State) : State :=
  mkState (user st) (users st) (toasts st) (f (notifications st))
    (showChatPopup st) (selectedConversationId st) (conversations st)
    (chatMessages st) (unreadMessagesCount st) (localStorage st).

Definition setShowChatPopup (b : bool) (st : State) : State :=
  mkState (user st) (users st) (toasts st) (notifications st)
    b (selectedConversationId st) (conversations st)
    (chatMessages st) (unreadMessagesCount st) (localStorage st).

Definition setSelectedConversationId (c : option string) (st : State) : State :=
  mkState (user st) (users st) (toasts st) (notifications st)
    (showChatPopup st) c (conversations st)
    (chatMessages st) (unreadMessagesCount st) (localStorage st).

Definition setConversations
    (f : gmap string (list ChatMessage.t) → gmap string (list ChatMessage.t))
    (st : State) : State :=
  mkState (user st) (users st) (toasts st) (notifications st)
    (showChatPopup st) (selectedConversationId st) (f (conversations st))
    (chatMessages st) (unreadMessagesCount st) (localStorage st).

Definition setChatMessages (f : list ChatMessage.t → list ChatMessage.t)
    (st : State) : State :=
  mkState (user st) (users st) (toasts st) (notifications st)
    (showChatPopup st) (selectedConversationId st) (conversations st)
    (f (chatMessages st)) (unreadMessagesCount st) (localStorage st).

Definition setUnreadMessagesCount (f : nat → nat) (st : State) : State :=
  mkState (user st) (users st) (toasts st) (notifications st)
    (showChatPopup st) (selectedConversationId st) (conversations st)
    (chatMessages st) (f (unreadMessagesCount st)) (localStorage st).

(** [localStorage.setItem(key, value)] *)
Definition setItem (key value : string) (st : State) : State :=
  mkState (user st) (users st) (toasts st) (notifications st)
    (showChatPopup st) (selectedConversationId st) (conversations st)
    (chatMessages st) (unreadMessagesCount st) (<[key := value]> (localStorage st)).

(** [localStorage.getItem(key)] *)
Definition getItem (key : string) (st : State) : option string :=
  localStorage st !! key.

(** [localStorage.removeItem(key)] *)
Definition removeItem (key : string) (st : State) : State :=
  mkState (user st) (users st) (toasts st) (notifications st)
    (showChatPopup st) (selectedConversationId st) (conversations st)
    (chatMessages st) (unreadMessagesCount st) (delete key (localStorage st)).

Definition setUser (u : option User.t) (st : State) : State :=
  mkState u (users st) (toasts st) (notifications st)
    (showChatPopup st) (selectedConversationId st) (conversations st)
    (chatMessages st) (unreadMessagesCount st) (localStorage st).

(** [user?.id] *)
Definition userId (st : State) : option string := User.id <$> user st.

Definition showToast (clk : Clock) (ty : ToastType) (title message : string)
    (st : State) : State :=
  setToasts (λ prev, prev ++ [Toast.mk (nowMs clk) ty title message]) st.

(** The branch of [apiCall] for an answer with status 401, on the fields of
    the state that the embedding carries: the three session keys are removed
    from [localStorage], the user is forgotten and a warning is shown.  Then
    [apiCall] throws [sessionExpiredError], so the [catch] block of the
    function that awaits it runs on the state that this branch leaves, with
    a clock reading of its own. *)
Definition sessionExpired (clk : Clock) (st : State) : State :=
  showToast clk warning "Session Expired" "Please login again"
    (setUser None
       (removeItem "organization" (removeItem "user" (removeItem "accessToken" st)))).

Definition sessionExpiredError : Thrown :=
  ErrorObject "Session expired. Please login again.".

Definition addNotification (clk : Clock) (n : NotificationInput.t)
    (st : State) : State :=
  let newNotification :=
    Notification.mk (nowMs clk) (NotificationInput.type n)
      (NotificationInput.title n) (NotificationInput.message n)
      (NotificationInput.read n) (nowISO clk) (NotificationInput.data n) in
  setNotifications (λ prev, newNotification :: prev) st.

Definition markNotificationAsRead (id : string) (st : State) : State :=
  let notification :=
    List.find (λ n, bool_decide (Notification.id n = id)) (notifications st) in
  let st1 :=
    match notification with
    | Some n =>
        match Notification.type n, data_conversationId (Notification.data n) with
        | new_message, Some c =>
            if truthy (Some c)
            then setSelectedConversationId (Some c) (setShowChatPopup true st)
            else st
        | _, _ => st
        end
    | None => st
    end in
  setNotifications
    (map (λ n, if decide (Notification.id n = id) then Notification.markRead n else n))
    st1.

(** The click handler of the floating chat button. *)
Definition toggleChatPopup (st : State) : State :=
  let st1 := setShowChatPopup (negb (showChatPopup st)) st in
  if showChatPopup st then st1 else setUnreadMessagesCount (λ _, 0) st1.

(** The callback of [messages.map] in [loadConversationMessages]. *)
Definition formatMessage (msg : RawMessage.t) : ChatMessage.t :=
  ChatMessage.mk
    (RawMessage.id msg)
    (js_or_default
       (js_or (RawMessage.sender_name msg)
          (js_or (RawMessage.author_name msg)
             (RawMessage.author msg ≫= Author.name)))
       "Unknown")
    (js_or_default
       (js_or (RawMessage.sender_id msg)
          (js_or (RawMessage.author_id msg)
             (RawMessage.author msg ≫= Author.id)))
       "")
    (RawMessage.content msg)
    (RawMessage.created_at msg)
    (js_or_default
       (js_or (RawMessage.sender_avatar msg)
          (js_or (RawMessage.author_avatar msg)
             (RawMessage.author msg ≫= Author.avatar)))
       "U").

(** [`lastSeenMessage_${conversationId}`] *)
Definition lastSeenKey (conversationId : string) : string :=
  "lastSeenMessage_" +:+ conversationId.

(** [`msg_${msg.id}`] *)
Definition notificationId (msg : ChatMessage.t) : string :=
  "msg_" +:+ ChatMessage.id msg.

(** [msg.userId !== user?.id] *)
Definition isFromOtherUser (uid : option string) (msg : ChatMessage.t) : bool :=
  bool_decide (Some (ChatMessage.userId msg) ≠ uid).

(** [isFromOtherUser && msg.id > lastSeenMessageId] *)
Definition isNewMessage (uid : option string) (lastSeenMessageId : string)
    (msg : ChatMessage.t) : bool :=
  isFromOtherUser uid msg && String.ltb lastSeenMessageId (ChatMessage.id msg).

(** The notification built for a new message. *)
Definition newNotif (clk : Clock) (conversationId : string)
    (msg : ChatMessage.t) : Notification.t :=
  Notification.mk
    (notificationId msg)
    new_message
    ("New message from " +:+ ChatMessage.user msg)
    (preview 40 (ChatMessage.message msg))
    false
    (js_or_default (ChatMessage.timestamp msg) (nowISO clk))
    (MessageRef conversationId (ChatMessage.id msg)).

(** [prev.find(n => n.id === notificationId)] is truthy. *)
Definition notificationExists (key : string) (prev : list Notification.t) : bool :=
  bool_decide (is_Some (List.find (λ n, bool_decide (Notification.id n = key)) prev)).

(** One round of the [formattedMessages.forEach] callback, with its updater
    run.  The accumulator is the [notifications] state together with the
    local array [newNotifications]. *)
Definition notifyStep (clk : Clock) (conversationId : string)
    (uid : option string) (lastSeenMessageId : string)
    (acc : list Notification.t * list Notification.t) (msg : ChatMessage.t)
    : list Notification.t * list Notification.t :=
  if isNewMessage uid lastSeenMessageId msg && isFromOtherUser uid msg then
    if notificationExists (notificationId msg) acc.1 then acc
    else (newNotif clk conversationId msg :: acc.1,
          acc.2 ++ [newNotif clk conversationId msg])
  else acc.

Definition notifyLoop (clk : Clock) (conversationId : string)
    (uid : option string) (lastSeenMessageId : string)
    (formattedMessages : list ChatMessage.t)
    (acc : list Notification.t * list Notification.t)
    : list Notification.t * list Notification.t :=
  foldl (notifyStep clk conversationId uid lastSeenMessageId) acc formattedMessages.

(** The messages for which the [forEach] callback calls [setNotifications],
    in the order of the calls. *)
Definition notifiedMessages (uid : option string) (lastSeenMessageId : string)
    (formattedMessages : list ChatMessage.t) : list ChatMessage.t :=
  filter (λ msg, isNewMessage uid lastSeenMessageId msg && isFromOtherUser uid msg = true)
    formattedMessages.

(** The local array [newNotifications] when the first [ran] of the updater
    functions handed to [setNotifications] have run: an updater pushes its
    notification when it runs, not when the loop passes it to the setter. *)
Definition newNotificationsWhen (ran : nat) (clk : Clock) (conversationId : string)
    (uid : option string) (lastSeenMessageId : string)
    (formattedMessages : list ChatMessage.t) (prev : list Notification.t)
    : list Notification.t :=
  (notifyLoop clk conversationId uid lastSeenMessageId
     (take ran (notifiedMessages uid lastSeenMessageId formattedMessages))
     (prev, [])).2.

(** The predicate of the [prev.map] that marks message notifications read. *)
Definition isMessageNotificationOf (conversationId : string)
    (n : Notification.t) : bool :=
  bool_decide (Notification.type n = new_message)
  && bool_decide (data_conversationId (Notification.data n) = Some conversationId).

Definition markConversationRead (conversationId : string)
    (prev : list Notification.t) : list Notification.t :=
  map (λ n, if isMessageNotificationOf conversationId n
            then Notification.markRead n else n) prev.

(** [loadConversationMessages], from the point where the awaited [apiCall]
    has settled with [result].  The test [newNotifications.length > 0] after
    the loop sees the array as the updaters that have run by then have
    filled it, and the updater of the unread counter reads its length when it
    is run itself. *)
Definition loadConversationMessages (clk : Clock) (conversationId : string)
    (result : ApiResult MessagesResponse) (st : State) : State :=
  match result with
  | Rejected e =>
      showToast clk error "Error" (errorMessageOr e "Failed to load messages") st
  | Resolved response =>
      let formattedMessages := map formatMessage (responseMessages response) in
      let key := lastSeenKey conversationId in
      let lastSeenMessageId := getItem key st in
      let nonEmpty := bool_decide (0 < length formattedMessages) in
      let popup := showChatPopup st in
      (* first load: the latest message becomes the last seen one *)
      let st1 :=
        if negb (truthy lastSeenMessageId) && nonEmpty && negb popup then
          match last formattedMessages with
          | Some latestMessage => setItem key (ChatMessage.id latestMessage) st
          | None => st
          end
        else st in
      (* chat closed and a baseline exists: notify about new messages *)
      let st2 :=
        if negb popup && nonEmpty && truthy lastSeenMessageId then
          let notifs :=
            (notifyLoop clk conversationId (userId st)
               (default "" lastSeenMessageId) formattedMessages
               (notifications st1, [])).1 in
          let newNotifications ran :=
            newNotificationsWhen ran clk conversationId (userId st)
              (default "" lastSeenMessageId) formattedMessages
              (notifications st1) in
          let st' := setNotifications (λ _, notifs) st1 in
          if bool_decide (0 < length (newNotifications (updatersRun clk)))
          then setUnreadMessagesCount
                 (λ prev, prev + length (newNotifications
                                          (updatersRun clk + updatersRunLater clk)))
                 st'
          else st'
        else st1 in
      (* chat open: everything is seen *)
      let st3 :=
        if popup && nonEmpty then
          match last formattedMessages with
          | Some latestMessage =>
              setNotifications (markConversationRead conversationId)
                (setUnreadMessagesCount (λ _, 0)
                   (setItem key (ChatMessage.id latestMessage) st2))
          | None => st2
          end
        else st2 in
      setConversations (λ prev, <[conversationId := formattedMessages]> prev)
        (setChatMessages (λ _, formattedMessages) st3)
  end.

(** [sendMessageAPI], from the point where the awaited [apiCall] has
    settled; on rejection the error is shown and thrown again. *)
Definition sendMessageAPI (clk : Clock) (conversationId : string)
    (result : ApiResult RawMessage.t) (st : State) : State :=
  match result with
  | Rejected e =>
      showToast clk error "Error" (errorMessageOr e "Failed to send message") st
  | Resolved response =>
      let newMessage :=
        ChatMessage.mk
          (RawMessage.id response)
          (js_or_default
             (js_or (RawMessage.sender_name response)
                (js_or (RawMessage.author_name response) (User.name <$> user st)))
             "You")
          (js_or_default
             (js_or (RawMessage.sender_id response)
                (js_or (RawMessage.author_id response) (User.id <$> user st)))
             "")
          (RawMessage.content response)
          (RawMessage.created_at response)
          (js_or_default
             (js_or (RawMessage.sender_avatar response)
                (js_or (RawMessage.author_avatar response) (User.avatar <$> user st)))
             "U") in
      setConversations
        (λ prev, <[conversationId :=
                     default [] (prev !! conversationId) ++ [newMessage]]> prev)
        (setChatMessages (λ prev, prev ++ [newMessage]) st)
  end.

(** The [onmessage] handler that [connectWebSocket] installs. *)
Definition onmessage (clk : Clock) (event : MessageEvent) (st : State) : State :=
  match event with
  | None => st (* JSON.parse throws: logged *)
  | Some (chat_message (Some message)) =>
      if bool_decide (RawMessage.sender_id message ≠ userId st) then
        let sender :=
          List.find
            (λ u, bool_decide (Some (User.id u) = RawMessage.sender_id message))
            (users st) in
        let senderName :=
          js_or_default
            (js_or (User.name <$> sender) (RawMessage.sender_name message))
            "Someone" in
        let st1 :=
          showToast clk info ("New Message from " +:+ senderName)
            (preview 50 (RawMessage.content message)) st in
        addNotification clk
          (NotificationInput.mk comment_added
             ("New Message from " +:+ senderName)
             (preview 100 (RawMessage.content message))
             false
             (PushRef (RawMessage.id message) (RawMessage.sender_id message)
                (RawMessage.conversation_id message)))
          st1
      else st
  | Some _ => st
  end.

(** [removeToast] *)
Definition removeToast (id : string) (st : State) : State :=
  setToasts (filter (λ t, Toast.id t ≠ id)) st.

(** [markAllNotificationsAsRead] *)
Definition markAllNotificationsAsRead (st : State) : State :=
  setNotifications (map Notification.markRead) st.

(** [notifications.filter(n => !n.read).length], the number on the bell. *)
Definition unreadNotifications (st : State) : nat :=
  length (filter (λ n, Notification.read n = false) (notifications st)).

(** The fields of a user that [getOrCreateConversation] reads from [user]
    and [users]. *)
Module Member.
Record t := mk { id : string; organization_id : string; is_active : bool }.
End Member.

(** A conversation as [GET /api/chat/conversations] lists it. *)
Module ConversationInfo.
Record t := mk {
  id : string;
  type : option string;
  participants : option (list string)
}.
End ConversationInfo.

Inductive ConversationsResponse :=
| ConvArray (items : list ConversationInfo.t)
| ConvObject (conversations : option (list ConversationInfo.t)).

(** [Array.isArray(response) ? response : response.conversations || []] *)
Definition responseConversations (response : ConversationsResponse)
    : list ConversationInfo.t :=
  match response with
  | ConvArray items => items
  | ConvObject conversations => default [] conversations
  end.

(** The body of [POST /api/chat/conversations]; a participant that is
    [undefined] is [None]. *)
Module CreateBody.
Record t := mk {
  type : string;
  name : option string;
  participants : list (option string)
}.
End CreateBody.

(** [c => c.type === 'team'] *)
Definition isTeamConversation (c : ConversationInfo.t) : bool :=
  bool_decide (ConversationInfo.type c = Some "team").

(** [participants.includes(x)] for a possibly missing [x]. *)
Definition includes (participants : list string) (x : option string) : bool :=
  match x with
  | Some v => bool_decide (v ∈ participants)
  | None => false
  end.

(** The callback of [conversations.find] in the direct-message branch. *)
Definition isDirectConversationOf (participantId : string) (uid : option string)
    (c : ConversationInfo.t) : bool :=
  if bool_decide (ConversationInfo.type c ≠ Some "direct") then false
  else
    let participants := default [] (ConversationInfo.participants c) in
    includes participants (Some participantId) && includes participants uid.

(** The identifiers of the active users of the current user's organization. *)
Definition orgUserIds (user : option Member.t) (users : list Member.t)
    : list (option string) :=
  map (λ u, Some (Member.id u))
    (filter (λ u, Some (Member.organization_id u) = (Member.organization_id <$> user)
                  ∧ Member.is_active u = true) users).

(** What a call of [getOrCreateConversation] comes to: an existing
    conversation is returned, or one is created and returned, or [null]. *)
Inductive ConversationOutcome :=
| Existing (id : string)
| Created (body : CreateBody.t) (id : string)
| NoConversation.

(** [getOrCreateConversation]: [listResult] is what the [GET] settles with
    and [createResult] what the [POST] settles with, if it is made. *)
Definition getOrCreateConversation (clk : Clock) (user : option Member.t)
    (users : list Member.t) (participantId : option string)
    (listResult : ApiResult ConversationsResponse)
    (createResult : ApiResult ConversationInfo.t) (st : State)
    : ConversationOutcome * State :=
  let fail e :=
    (NoConversation,
     showToast clk error "Error" (errorMessageOr e "Failed to load conversation") st) in
  match listResult with
  | Rejected e => fail e
  | Resolved response =>
      let conversations := responseConversations response in
      let found :=
        if truthy participantId
        then List.find (isDirectConversationOf (default "" participantId)
                          (Member.id <$> user)) conversations
        else List.find isTeamConversation conversations in
      match found with
      | Some c => (Existing (ConversationInfo.id c), st)
      | None =>
          let body :=
            if truthy participantId
            then CreateBody.mk "direct" None [Member.id <$> user; participantId]
            else CreateBody.mk "team" (Some "Team Chat") (orgUserIds user users) in
          match createResult with
          | Resolved createResponse =>
              (Created body (ConversationInfo.id createResponse), st)
          | Rejected e => fail e
          end
      end
  end.

End App.

(** ** The Chat component *)

Module Chat.

(** The fields of a conversation that the handlers read or write. *)
Module Conversation.
Record t := mk {
  id : string;
  name : string;
  last_message : option RawMessage.t;
  last_activity : option string;
  unread_count : nat
}.
End Conversation.

Module User.
Record t := mk { id : string; name : string; is_online : option bool }.
Definition setOnline (b : bool) (u : t) : t := mk (id u) (name u) (Some b).
End User.

Record State := mkState {
  messages : list RawMessage.t;
  conversations : list Conversation.t;
  users : list User.t;
  typingUsers : list string;
  error : option string
}.

Definition setMessages (f : list RawMessage.t → list RawMessage.t)
    (st : State) : State :=
  mkState (f (messages st)) (conversations st) (users st) (typingUsers st) (error st).

Definition setConversations (f : list Conversation.t → list Conversation.t)
    (st : State) : State :=
  mkState (messages st) (f (conversations st)) (users st) (typingUsers st) (error st).

Definition setUsers (f : list User.t → list User.t) (st : State) : State :=
  mkState (messages st) (conversations st) (f (users st)) (typingUsers st) (error st).

Definition setTypingUsers (f : list string → list string) (st : State) : State :=
  mkState (messages st) (conversations st) (users st) (f (typingUsers st)) (error st).

Definition setError (e : option string) (st : State) : State :=
  mkState (messages st) (conversations st) (users st) (typingUsers st) e.

(** [prev.some(m => m.id === id)] *)
Definition hasMessage (id : string) (prev : list RawMessage.t) : bool :=
  existsb (λ m, bool_decide (RawMessage.id m = id)) prev.

(** The updater both the live handler and [sendMessage] hand to
    [setMessages]: append unless a message with this identifier is there. *)
Definition appendUnlessPresent (message : RawMessage.t)
    (prev : list RawMessage.t) : list RawMessage.t :=
  if hasMessage (RawMessage.id message) prev then prev else prev ++ [message].

(** [loadMessages], from the point where the awaited [apiCall] has settled. *)
Definition loadMessages (result : ApiResult MessagesResponse) (st : State) : State :=
  match result with
  | Resolved messagesData => setMessages (λ _, responseMessages messagesData) st
  | Rejected e =>
      setMessages (λ _, [])
        (setError (Some ("Failed to load messages: " +:+ errorText e)) st)
  end.

(** [sendMessage], from the point where the awaited [apiCall] has settled
    (the guards on the input text and the active conversation have passed).
    The broadcast of the message over the socket leaves the state alone. *)
Definition sendMessage (result : ApiResult RawMessage.t) (st : State) : State :=
  match result with
  | Resolved message => setMessages (appendUnlessPresent message) st
  | Rejected _ => setError (Some "Failed to send message") st
  end.

(** [deleteMessage], from the point where the awaited [apiCall] has settled. *)
Definition deleteMessage (messageId : string) (result : ApiResult unit)
    (st : State) : State :=
  match result with
  | Resolved _ =>
      setMessages (filter (λ m, RawMessage.id m ≠ messageId)) st
  | Rejected _ => setError (Some "Failed to delete message") st
  end.

(** What the live handler does to the component's own state, after the
    original handler has run.  The step is the handler's for the envelopes
    that carry what their type needs.  An envelope of type [chat_message]
    without a message makes the handler throw at [data.message.sender_id]
    inside its [try], after it has handed its two updaters to React; what
    these do when React runs them (fail at [data.message.id], or append
    [undefined] to an empty list) has no counterpart in [State], and the
    step keeps the state.  The timer that takes a typing user out of the
    list again after three seconds is not part of this step. *)
Definition handleData (currentUserId : option string) (data : WsData)
    (st : State) : State :=
  match data with
  | chat_message (Some message) =>
      setConversations
        (map (λ conv,
           if decide (Some (Conversation.id conv) = RawMessage.conversation_id message)
           then Conversation.mk (Conversation.id conv) (Conversation.name conv)
                  (Some message) (RawMessage.created_at message)
                  (Conversation.unread_count conv)
           else conv))
        (setMessages (appendUnlessPresent message) st)
  | user_typing uid =>
      if decide (Some uid ≠ currentUserId)
      then setTypingUsers (λ prev, filter (λ id, id ≠ uid) prev ++ [uid]) st
      else st
  | user_online uid =>
      setUsers (map (λ u, if decide (User.id u = uid) then User.setOnline true u else u)) st
  | user_offline uid =>
      setUsers (map (λ u, if decide (User.id u = uid) then User.setOnline false u else u)) st
  | message_deleted mid =>
      setMessages (filter (λ m, RawMessage.id m ≠ mid)) st
  | _ => st
  end.

(** [Array.from(new Set(items))]: every value once, at the place of its
    first occurrence. *)
Definition uniqueInOrder (items : list string) : list string :=
  foldl (λ seen x, if decide (x ∈ seen) then seen else seen ++ [x]) [] items.

(** The [participants] and the [type] that [createConversation] posts. *)
Definition createParticipants (currentUserId : string)
    (participantIds : list string) : list string :=
  uniqueInOrder (participantIds ++ [currentUserId]).

Definition conversationType (participants : list string) : string :=
  if decide (2 < length participants) then "group"
  else if decide (length participants = 2) then "direct"
  else "team".

Inductive View := conversationsView | chatView | usersView | participantsView.

(** The state of the component together with the conversation that is
    shown and the current view. *)
Record Panel := mkPanel {
  core : State;
  activeConversation : option Conversation.t;
  view : View
}.

(** [createConversation], from the point where the awaited [apiCall] has
    settled; without a current user it returns at once. *)
Definition createConversation (hasCurrentUser : bool)
    (result : ApiResult Conversation.t) (p : Panel) : Panel :=
  if hasCurrentUser then
    match result with
    | Resolved conversation =>
        mkPanel (setConversations (λ prev, conversation :: prev) (core p))
          (Some conversation) chatView
    | Rejected _ =>
        mkPanel (setError (Some "Failed to create conversation") (core p))
          (activeConversation p) (view p)
    end
  else p.

End Chat.

(** ** The EnhancedChat component *)

Module EnhancedChat.

Record State := mkState {
  teamMessages : list RawMessage.t;
  personalChats : gmap string (list RawMessage.t)
}.

(** [handleMessage]; it has no [try], so an event whose data does not parse
    ends this listener with the state as it was. *)
Definition handleMessage (currentUserId : string) (event : MessageEvent)
    (st : State) : State :=
  match event with
  | Some (new_team_message message) =>
      mkState (teamMessages st ++ [message]) (personalChats st)
  | Some (new_personal_message message) =>
      let otherUserId :=
        if decide (RawMessage.sender_id message = Some currentUserId)
        then RawMessage.recipient_id message
        else RawMessage.sender_id message in
      let key := default "undefined" otherUserId in
      mkState (teamMessages st)
        (<[key := default [] (personalChats st !! key) ++ [message]]> (personalChats st))
  | _ => st
  end.

End EnhancedChat.

(** ** The shared WebSocket and its handlers *)

(** The state of the three components that handle socket events. *)
Record World := mkWorld {
  app : App.State;
  chat : Chat.State;
  enhanced : EnhancedChat.State
}.

(** The closures registered on the socket.  [ChatHandler] keeps the handler it
    found in [onmessage] when it was installed ([originalOnMessage]), the
    [currentUser?.id] it closed over and whether a [showToast] was passed. *)
#[warnings="-register-all"]
Inductive Handler :=
| AppHandler
| ChatHandler (originalOnMessage : option Handler)
    (currentUserId : option string) (hasShowToast : bool)
| EnhancedChatHandler (currentUserId : string).

(** The part of Chat's handler that follows the call of the original one. *)
Definition chatOnMessage (currentUserId : option string) (hasShowToast : bool)
    (clk : Clock) (event : MessageEvent) (w : World) : World :=
  match event with
  | None => w
  | Some data =>
      let w1 := mkWorld (app w) (Chat.handleData currentUserId data (chat w)) (enhanced w) in
      match data with
      | chat_message (Some message) =>
          if bool_decide (RawMessage.sender_id message ≠ currentUserId) && hasShowToast
          then
            mkWorld
              (App.showToast clk App.info
                 ("New Message from "
                    +:+ js_or_default (RawMessage.sender_name message) "Someone")
                 (preview 50 (RawMessage.content message))
                 (app w1))
              (chat w1) (enhanced w1)
          else w1
      | _ => w1
      end
  end.

Fixpoint runHandler (h : Handler) (clk : Clock) (event : MessageEvent)
    (w : World) : World :=
  match h with
  | AppHandler => mkWorld (App.onmessage clk event (app w)) (chat w) (enhanced w)
  | ChatHandler originalOnMessage currentUserId hasShowToast =>
      let w1 :=
        match originalOnMessage with
        | Some original => runHandler original clk event w
        | None => w
        end in
      chatOnMessage currentUserId hasShowToast clk event w1
  | EnhancedChatHandler currentUserId =>
      mkWorld (app w) (chat w)
        (EnhancedChat.handleMessage currentUserId event (enhanced w))
  end.

(** The handler closures that run, in order, when [h] is called. *)
Fixpoint invoked (h : Handler) : list Handler :=
  match h with
  | ChatHandler (Some original) _ _ => invoked original ++ [h]
  | _ => [h]
  end.

Inductive ReadyState := CONNECTING | OPEN | CLOSING | CLOSED.

Global Instance ReadyState_eq_dec : EqDecision ReadyState.
Proof. solve_decision. Defined.

Module WebSocket.
Record t := mk {
  readyState : ReadyState;
  onmessage : option Handler;
  listeners : list Handler
}.
End WebSocket.

(** The handlers registered on a socket, in the order in which an event
    reaches them.  Every socket of this program gets its [onmessage] right
    after its creation, before any [addEventListener]. *)
Definition registered (ws : WebSocket.t) : list Handler :=
  option_list (WebSocket.onmessage ws) ++ WebSocket.listeners ws.

(** Delivery of one message event to a socket. *)
Definition dispatch (ws : WebSocket.t) (clk : Clock) (event : MessageEvent)
    (w : World) : World :=
  foldl (λ w h, runHandler h clk event w) w (registered ws).

(** All handler closures that run when an event is delivered. *)
Definition invokedOnEvent (ws : WebSocket.t) : list Handler :=
  registered ws ≫= invoked.

(** [connectWebSocket]: a new socket replaces [wsRef.current] and gets the
    application's handler. *)
Definition connectWebSocket (accessToken : string) (wsRef : option WebSocket.t)
    : option WebSocket.t :=
  if decide (accessToken = "") then wsRef
  else Some (WebSocket.mk CONNECTING (Some AppHandler) []).

(** Chat's [connectSocket], on [wsRef.current]. *)
Definition connectSocket (currentUserId : option string) (hasShowToast : bool)
    (ws : WebSocket.t) : WebSocket.t :=
  if decide (WebSocket.readyState ws = OPEN) then
    WebSocket.mk (WebSocket.readyState ws)
      (Some (ChatHandler (WebSocket.onmessage ws) currentUserId hasShowToast))
      (WebSocket.listeners ws)
  else ws.

(** EnhancedChat's [addEventListener('message', handleMessage)]. *)
Definition addMessageListener (currentUserId : string) (ws : WebSocket.t)
    : WebSocket.t :=
  WebSocket.mk (WebSocket.readyState ws) (WebSocket.onmessage ws)
    (WebSocket.listeners ws ++ [EnhancedChatHandler currentUserId]).

(** ** Sequences of operations on the application state *)

(** The values of [showChatPopup] and [user] that a function created by an
    earlier render still reads from its closure. *)
Module Closure.
Record t := mk { showChatPopup : bool; user : option App.User.t }.
End Closure.

(** The state as a function with the closure values [seen] reads it. *)
Definition withClosure (seen : Closure.t) (st : App.State) : App.State :=
  App.mkState (Closure.user seen) (App.users st) (App.toasts st)
    (App.notifications st) (Closure.showChatPopup seen)
    (App.selectedConversationId st) (App.conversations st)
    (App.chatMessages st) (App.unreadMessagesCount st) (App.localStorage st).

(** A call of [f], which writes neither [showChatPopup] nor [user], from a
    closure with the values [seen]: [f] reads them in place of the current
    values, which are the ones in the state afterwards. *)
Definition calledFrom (seen : Closure.t) (f : App.State → App.State)
    (st : App.State) : App.State :=
  withClosure (Closure.mk (App.showChatPopup st) (App.user st))
    (f (withClosure seen st)).

(** The operations on the chat state: [loadConversationMessages] called by a
    handler of the current render ([Reconcile]) or by the interval of the
    poll effect, whose function is the one of the render in which
    [selectedConversationId] or [accessToken] last changed ([Poll]); a
    WebSocket event ([Live]); [sendMessageAPI] ([Send]); a click on the
    floating chat button ([ToggleChat]), on the close button of the popup
    ([CloseChat]) or on a notification ([MarkRead]). *)
Inductive Op :=
| Reconcile (clk : Clock) (conversationId : string)
    (result : ApiResult MessagesResponse)
| Live (clk : Clock) (event : MessageEvent)
| Send (clk : Clock) (conversationId : string) (result : ApiResult RawMessage.t)
| ToggleChat
| MarkRead (id : string)
| Poll (clk : Clock) (seen : Closure.t) (conversationId : string)
    (result : ApiResult MessagesResponse)
| CloseChat.

Definition step (st : App.State) (op : Op) : App.State :=
  match op with
  | Reconcile clk c result => App.loadConversationMessages clk c result st
  | Live clk event => App.onmessage clk event st
  | Send clk c result => App.sendMessageAPI clk c result st
  | ToggleChat => App.toggleChatPopup st
  | MarkRead id => App.markNotificationAsRead id st
  | Poll clk seen c result =>
      calledFrom seen (App.loadConversationMessages clk c result) st
  | CloseChat => App.setShowChatPopup false st
  end.

Definition run (ops : list Op) (st : App.State) : App.State := foldl step st ops.

(** The stored watermark of a conversation. *)
Definition watermark (conversationId : string) (st : App.State) : option string :=
  App.getItem (App.lastSeenKey conversationId) st.

(** The identifier of the newest (last) message of a response. *)
Definition newestId (response : MessagesResponse) : option string :=
  RawMessage.id <$> last (responseMessages response).

(** Order on optional watermarks: no watermark is below every watermark. *)
Definition watermark_le (a b : option string) : Prop :=
  match a, b with
  | None, _ => True
  | Some _, None => False
  | Some x, Some y => String.le x y
  end.

(** The normalized form of the fetched messages. *)
Definition formattedOf (response : MessagesResponse) : list App.ChatMessage.t :=
  map App.formatMessage (responseMessages response).

(** The last two statements of [loadConversationMessages]'s [try] block. *)
Definition storeMessages (conversationId : string)
    (formattedMessages : list App.ChatMessage.t) (st : App.State) : App.State :=
  App.setConversations (λ prev, <[conversationId := formattedMessages]> prev)
    (App.setChatMessages (λ _, formattedMessages) st).

(** ** Logging out *)

(** [logout], on the fields of the state that the embedding carries: the
    socket is closed and forgotten, user, users, notifications and toasts are
    emptied, the three session keys are removed from [localStorage] and the
    farewell toast is shown.  The answer of the logout request is ignored. *)
Definition logout (clk : Clock) (wsRef : option WebSocket.t) (st : App.State)
    : option WebSocket.t * App.State :=
  let cleared :=
    App.mkState None [] [] []
      (App.showChatPopup st) (App.selectedConversationId st)
      (App.conversations st) (App.chatMessages st) (App.unreadMessagesCount st)
      (delete "organization" (delete "user" (delete "accessToken" (App.localStorage st)))) in
  (None, App.showToast clk App.info "Logged Out" "See you next time!" cleared).

(** [n] calls of Chat's [connectSocket] on the same socket. *)
Fixpoint connectSocketTimes (n : nat) (currentUserId : option string)
    (hasShowToast : bool) (ws : WebSocket.t) : WebSocket.t :=
  match n with
  | 0 => ws
  | S k => connectSocket currentUserId hasShowToast
             (connectSocketTimes k currentUserId hasShowToast ws)
  end.

(** ** Helper notions used in the statements *)

(** The fetched lists of a sequence of operations are in order when each of
    them ends in an identifier that is not below the watermark stored at the
    time it is reconciled. *)
Fixpoint polls_in_order (ops : list Op) (st : App.State) : Prop :=
  match ops with
  | [] => True
  | op :: rest =>
      match op with
      | Reconcile _ c (Resolved response) | Poll _ _ c (Resolved response) =>
          ∀ w newest, watermark c st = Some w → newestId response = Some newest →
                      String.le w newest
      | _ => True
      end
      ∧ polls_in_order rest (step st op)
  end.

(** What a reconcile with the chat closed adds to the unread counter. *)
Definition countedNotifications (clk : Clock) (conversationId : string)
    (uid : option string) (lastSeen : string)
    (formattedMessages : list App.ChatMessage.t) (prev : list App.Notification.t)
    : nat :=
  if bool_decide
       (0 < length (App.newNotificationsWhen (updatersRun clk) clk conversationId
                      uid lastSeen formattedMessages prev))
  then length (App.newNotificationsWhen (updatersRun clk + updatersRunLater clk)
                 clk conversationId uid lastSeen formattedMessages prev)
  else 0.

(** A fetched message that the specification counts as new: its sender is
    not the current user and its identifier sorts after the watermark. *)
Definition fromAnotherUserAfter (uid : option string) (w : string)
    (msg : App.ChatMessage.t) : Prop :=
  Some (App.ChatMessage.userId msg) ≠ uid
  ∧ String.compare w (App.ChatMessage.id msg) = Lt.

Global Instance fromAnotherUserAfter_dec uid w msg :
  Decision (fromAnotherUserAfter uid w msg).
Proof. unfold fromAnotherUserAfter. apply _. Defined.


(** Operations on the state of the Chat component. *)
Inductive ChatOp :=
| ChatLoad (result : ApiResult MessagesResponse)
| ChatLive (currentUserId : option string) (data : WsData)
| ChatSend (result : ApiResult RawMessage.t)
| ChatDelete (messageId : string) (result : ApiResult unit).

Definition chatStep (st : Chat.State) (op : ChatOp) : Chat.State :=
  match op with
  | ChatLoad result => Chat.loadMessages result st
  | ChatLive uid data => Chat.handleData uid data st
  | ChatSend result => Chat.sendMessage result st
  | ChatDelete id result => Chat.deleteMessage id result st
  end.

Definition chatRun (ops : list ChatOp) (st : Chat.State) : Chat.State :=
  foldl chatStep st ops.

(** Every fetched list of the sequence names each identifier once. *)
Definition fetched_without_duplicates (ops : list ChatOp) : Prop :=
  Forall (λ op, match op with
                | ChatLoad (Resolved response) =>
                    NoDup (map RawMessage.id (responseMessages response))
                | _ => True
                end) ops.

(** ** Sample data *)

Definition sample_raw (id sender content : string) : RawMessage.t :=
  RawMessage.mk id content (Some "2024-01-01T00:00:00.000Z") (Some "c1")
    (Some sender) None None None None None None None.

Definition sample_chat_state : Chat.State :=
  Chat.mkState [sample_raw "m1" "u2" "hello"] [] [] [] None.

Definition sample_user : App.User.t := App.User.mk "u1" "Ann" "A".

(** A reading taken while the component has an update pending: React runs
    every updater when it renders. *)
Definition sample_clock : Clock :=
  {| nowMs := "1700000000000"; nowISO := "2023-11-14T22:13:20.000Z";
     updatersRun := 0; updatersRunLater := 0 |}.

(** A reading taken while the component has no update pending, for a loop
    that hands three updaters to [setNotifications]: React runs the first at
    the call and the other two when it renders, before the updater of the
    unread counter. *)
Definition sample_idle_clock : Clock :=
  {| nowMs := "1700000000000"; nowISO := "2023-11-14T22:13:20.000Z";
     updatersRun := 1; updatersRunLater := 2 |}.

(** Logged in as [u1], chat closed, nothing stored. *)
Definition sample_state : App.State :=
  App.mkState (Some sample_user) [] [] [] false (Some "c1") ∅ [] 0 ∅.

Definition sample_history : MessagesResponse :=
  RespArray [sample_raw "m1" "u2" "hello"; sample_raw "m2" "u3" "hi there"].

(** Chat closed, one unread message notification of [c1], watermark [m2]. *)
Definition sample_unread_state : App.State :=
  App.mkState (Some sample_user) [] []
    [App.newNotif sample_clock "c1" (App.formatMessage (sample_raw "m3" "u2" "ping"))]
    false (Some "c1") ∅ [] 1 {[ App.lastSeenKey "c1" := "m2" ]}.

Definition sample_history3 : MessagesResponse :=
  RespArray [sample_raw "m1" "u2" "hello"; sample_raw "m2" "u3" "hi there";
             sample_raw "m3" "u2" "ping"].

(** Chat open on [c1], watermark [m5]. *)
Definition sample_open_state : App.State :=
  App.mkState (Some sample_user) [] [] [] true (Some "c1") ∅ [] 0
    {[ App.lastSeenKey "c1" := "m5" ]}.

(** The history after the two newest messages were deleted. *)
Definition sample_short_history : MessagesResponse :=
  RespArray [sample_raw "m1" "u2" "hello"; sample_raw "m3" "u2" "ping"].

Definition sample_ops : list Op :=
  [ Reconcile sample_clock "c1" (Resolved sample_history);
    Live sample_clock (Some (chat_message (Some (sample_raw "m3" "u2" "ping"))));
    ToggleChat;
    Reconcile sample_clock "c1" (Resolved sample_history3) ].

(** Chat closed, watermark [m2], nothing notified yet. *)
Definition sample_closed_state : App.State :=
  App.mkState (Some sample_user) [] [] [] false (Some "c1") ∅ [] 0
    {[ App.lastSeenKey "c1" := "m2" ]}.

Definition sample_history5 : MessagesResponse :=
  RespArray [sample_raw "m1" "u2" "hello"; sample_raw "m2" "u3" "hi there";
             sample_raw "m3" "u2" "ping"; sample_raw "m4" "u3" "pong";
             sample_raw "m5" "u2" "anyone?"].

Definition sample_push (id sender content : string) : Op :=
  Live sample_clock (Some (chat_message (Some (sample_raw id sender content)))).


(** A message that names its sender in none of the three ways. *)
Definition sample_senderless : RawMessage.t :=
  RawMessage.mk "m3" "who am I?" None (Some "c1")
    None None None None None None None None.

(** The message the current user [u1] has just posted, as the backend
    answers it and as it appears in the history. *)
Definition sample_sent : RawMessage.t := sample_raw "m3" "u1" "on my way".

Definition sample_history_with_sent : MessagesResponse :=
  RespArray [sample_raw "m1" "u2" "hello"; sample_raw "m2" "u3" "hi there";
             sample_sent].

(** The application's socket, once open. *)
Definition sample_socket : WebSocket.t := WebSocket.mk OPEN (Some AppHandler) [].

Definition sample_world : World :=
  mkWorld sample_closed_state sample_chat_state (EnhancedChat.mkState [] ∅).

Definition sample_chat_ops : list ChatOp :=
  [ ChatLoad (Resolved sample_history);
    ChatLive (Some "u1") (chat_message (Some (sample_raw "m3" "u2" "ping")));
    ChatSend (Resolved (sample_raw "m4" "u1" "pong"));
    ChatLive (Some "u1") (chat_message (Some (sample_raw "m4" "u1" "pong")));
    ChatLive (Some "u1") (chat_message (Some (sample_raw "m3" "u2" "ping"))) ].

(** ** Further helper notions and sample data *)

Definition sample_author_message : RawMessage.t :=
  RawMessage.mk "m7" "from the author shape" None (Some "c1")
    (Some "") None None (Some "u9") None None
    (Some (Author.mk (Some "Nested") (Some "u8") None)) None.

(** The conversation that a click on the notification [id] opens, if any. *)
Definition opensConversation (id : string) (st : App.State) : option string :=
  match List.find (λ n, bool_decide (App.Notification.id n = id))
          (App.notifications st) with
  | Some n =>
      match App.Notification.type n, App.data_conversationId (App.Notification.data n) with
      | App.new_message, Some c => if decide (c = "") then None else Some c
      | _, _ => None
      end
  | None => None
  end.

Definition sample_bare_response : RawMessage.t :=
  RawMessage.mk "m9" "sent just now" None (Some "c1")
    None None None None None None None None.

Definition sample_typing_state : Chat.State :=
  Chat.mkState [] [] [] ["u2"; "u3"] None.

Definition sample_personal (sender recipient : string) : RawMessage.t :=
  RawMessage.mk "p1" "psst" None None (Some sender) None None None None None None
    (Some recipient).

Definition sample_bare_socket : WebSocket.t := WebSocket.mk OPEN None [].

Definition sample_member : App.Member.t := App.Member.mk "u1" "org1" true.

Definition sample_conversations : App.ConversationsResponse :=
  App.ConvObject (Some
    [ App.ConversationInfo.mk "c0" (Some "team") None;
      App.ConversationInfo.mk "c7" (Some "direct") (Some ["u3"; "u1"]);
      App.ConversationInfo.mk "c8" (Some "direct") (Some ["u1"; "u2"]) ]).

(** An operation that keeps the shown list the list of conversation [c]. *)
Definition keeps_list (c : string) (op : Op) : Prop :=
  match op with
  | Reconcile _ c' (Resolved _) | Poll _ _ c' (Resolved _) => c' = c
  | Send _ c' (Resolved _) => c' = c
  | _ => True
  end.

Definition sample_cache_ops : list Op :=
  [ Send sample_clock "c1" (Resolved sample_sent);
    sample_push "m4" "u3" "pong";
    Send sample_clock "c1" (Rejected (ErrorObject "offline"));
    ToggleChat ].


(** Chat closed, watermark [m2], and the message [m3] of [u2] in
    conversation [c1] has been pushed over the WebSocket. *)
Definition sample_pushed_state : App.State :=
  App.onmessage sample_clock
    (Some (chat_message (Some (sample_raw "m3" "u2" "ping")))) sample_closed_state.

(** What the interval of the poll effect reads when it was started while the
    chat was closed. *)
Definition sample_closed_closure : Closure.t := Closure.mk false (Some sample_user).

Definition sample_presence_state : Chat.State :=
  Chat.mkState [] [] [Chat.User.mk "u2" "Bob" None; Chat.User.mk "u3" "Cy" None] [] None.

Definition sample_conversation_state : Chat.State :=
  Chat.mkState []
    [Chat.Conversation.mk "c1" "General" None None 0;
     Chat.Conversation.mk "c2" "Other" None None 0] [] [] None.

(** * Properties *)

(** ** Basic facts *)

Lemma truthy_Some_ne (s : string) : s ≠ "" → truthy (Some s) = true.
Proof. intros H. unfold truthy. by destruct (decide (s = "")). Qed.

Lemma truthy_inv (v : option string) :
  truthy v = true → ∃ s, v = Some s ∧ s ≠ "".
Proof.
  destruct v as [s|]; simpl; [|done].
  destruct (decide (s = "")); [done|]. eauto.
Qed.

Lemma formatMessage_id (msg : RawMessage.t) :
  App.ChatMessage.id (App.formatMessage msg) = RawMessage.id msg.
Proof. reflexivity. Qed.

Lemma last_map_formatMessage (l : list RawMessage.t) :
  last (map App.formatMessage l) = App.formatMessage <$> last l.
Proof. apply (fmap_last App.formatMessage). Qed.

Lemma markConversationRead_length c (l : list App.Notification.t) :
  length (App.markConversationRead c l) = length l.
Proof. apply length_map. Qed.

Lemma markConversationRead_ids c (l : list App.Notification.t) :
  map App.Notification.id (App.markConversationRead c l) = map App.Notification.id l.
Proof.
  unfold App.markConversationRead. rewrite map_map. apply map_ext.
  intros n. by destruct (App.isMessageNotificationOf c n).
Qed.

Lemma lastSeenKey_not_session_key c :
  App.lastSeenKey c ≠ "accessToken" ∧ App.lastSeenKey c ≠ "user"
  ∧ App.lastSeenKey c ≠ "organization".
Proof. unfold App.lastSeenKey. repeat split; discriminate. Qed.

Lemma state_eq (s1 s2 : App.State) :
  App.user s1 = App.user s2 → App.users s1 = App.users s2 →
  App.toasts s1 = App.toasts s2 → App.notifications s1 = App.notifications s2 →
  App.showChatPopup s1 = App.showChatPopup s2 →
  App.selectedConversationId s1 = App.selectedConversationId s2 →
  App.conversations s1 = App.conversations s2 →
  App.chatMessages s1 = App.chatMessages s2 →
  App.unreadMessagesCount s1 = App.unreadMessagesCount s2 →
  App.localStorage s1 = App.localStorage s2 →
  s1 = s2.
Proof. destruct s1, s2. cbn. intros. by subst. Qed.

(** Reads a field through the state setters. *)
Ltac state_field :=
  cbn [App.user App.users App.toasts App.notifications App.showChatPopup
       App.selectedConversationId App.conversations App.chatMessages
       App.unreadMessagesCount App.localStorage
       storeMessages App.setConversations App.setChatMessages
       App.setNotifications App.setUnreadMessagesCount App.setItem
       App.setToasts App.setShowChatPopup App.setSelectedConversationId].

(** ** The cases of [loadConversationMessages] *)

Section load_cases.
Context (clk : Clock) (conversationId : string) (response : MessagesResponse)
          (st : App.State).

Abbreviation formatted := (formattedOf response).
Abbreviation finish := (storeMessages conversationId formatted).

Lemma nonEmpty_last (l : list App.ChatMessage.t) :
  bool_decide (0 < length l) = true ↔ ∃ x, last l = Some x.
Proof.
  rewrite bool_decide_eq_true. split.
  - intros H. destruct (last l) eqn:E; [eauto|].
    apply last_None in E. subst. simpl in H. lia.
  - intros [x Hx]. destruct l; [done|]. simpl. lia.
Qed.

(** No message fetched: only the message lists are replaced. *)
Lemma load_empty :
  responseMessages response = [] →
  App.loadConversationMessages clk conversationId (Resolved response) st
  = finish st.
Proof.
  intros E. unfold App.loadConversationMessages, storeMessages, formattedOf.
  rewrite E. simpl. by rewrite !andb_false_r.
Qed.

(** Chat closed, no usable watermark: the newest message becomes the
    watermark and nothing else happens. *)
Lemma load_first latest :
  App.showChatPopup st = false →
  truthy (watermark conversationId st) = false →
  last formatted = Some latest →
  App.loadConversationMessages clk conversationId (Resolved response) st
  = finish (App.setItem (App.lastSeenKey conversationId)
              (App.ChatMessage.id latest) st).
Proof.
  intros Hp Hw Hl. unfold App.loadConversationMessages.
  fold (formattedOf response). unfold watermark in Hw. rewrite Hp, Hw, Hl.
  assert (bool_decide (0 < length formatted) = true) as ->
    by (apply nonEmpty_last; eauto).
  reflexivity.
Qed.

(** Chat closed, watermark [w] present: the notification loop runs. *)
Lemma load_closed w :
  App.showChatPopup st = false →
  watermark conversationId st = Some w → w ≠ "" →
  formatted ≠ [] →
  let r := App.notifyLoop clk conversationId (App.userId st) w formatted
             (App.notifications st, []) in
  App.loadConversationMessages clk conversationId (Resolved response) st
  = finish (App.setUnreadMessagesCount
              (λ prev, prev + countedNotifications clk conversationId
                                (App.userId st) w formatted (App.notifications st))
              (App.setNotifications (λ _, r.1) st)).
Proof.
  intros Hp Hw Hne Hf r. unfold App.loadConversationMessages.
  fold (formattedOf response). unfold watermark in Hw. rewrite Hp, Hw.
  rewrite (truthy_Some_ne w Hne).
  assert (bool_decide (0 < length formatted) = true) as ->.
  { apply bool_decide_eq_true. destruct formatted; [done|simpl; lia]. }
  simpl. fold r. unfold countedNotifications.
  case_bool_decide as Hlen; [done|].
  unfold storeMessages. f_equal. f_equal.
  unfold App.setUnreadMessagesCount, App.setNotifications. simpl.
  f_equal. lia.
Qed.

(** Chat open: watermark, unread counter and notifications are updated. *)
Lemma load_open latest :
  App.showChatPopup st = true →
  last formatted = Some latest →
  App.loadConversationMessages clk conversationId (Resolved response) st
  = finish (App.setNotifications (App.markConversationRead conversationId)
              (App.setUnreadMessagesCount (λ _, 0)
                 (App.setItem (App.lastSeenKey conversationId)
                    (App.ChatMessage.id latest) st))).
Proof.
  intros Hp Hl. unfold App.loadConversationMessages.
  fold (formattedOf response). rewrite Hp, Hl.
  assert (bool_decide (0 < length formatted) = true) as ->
    by (apply nonEmpty_last; eauto).
  rewrite !andb_false_r. reflexivity.
Qed.

End load_cases.

(** ** The notification loop *)

Section notify_loop.
Context (clk : Clock) (conversationId : string) (uid : option string)
          (lastSeen : string).

Implicit Types (msg : App.ChatMessage.t) (n : App.Notification.t).
Implicit Types (prev created : list App.Notification.t).

Abbreviation qualifies := (App.isNewMessage uid lastSeen).

Lemma notificationExists_spec key prev :
  App.notificationExists key prev = true ↔ key ∈ map App.Notification.id prev.
Proof.
  unfold App.notificationExists. rewrite bool_decide_eq_true.
  induction prev as [|n prev IH]; simpl.
  - split; [intros [? ?]; done | intros H; inversion H].
  - case_bool_decide as Hn.
    + split; [intros _; subst; left | eauto].
    + rewrite IH, elem_of_cons. split; [by right|]. by intros [?|?].
Qed.

Lemma notificationExists_false key prev :
  App.notificationExists key prev = false ↔ key ∉ map App.Notification.id prev.
Proof.
  rewrite <- notificationExists_spec.
  destruct (App.notificationExists key prev); split; done.
Qed.

Lemma notifyStep_guard msg :
  App.isNewMessage uid lastSeen msg && App.isFromOtherUser uid msg = qualifies msg.
Proof.
  unfold App.isNewMessage.
  destruct (App.isFromOtherUser uid msg); simpl; [by rewrite andb_true_r | done].
Qed.

Lemma newNotif_id msg :
  App.Notification.id (App.newNotif clk conversationId msg) = App.notificationId msg.
Proof. reflexivity. Qed.

(** What one run of the loop adds: the created notifications are put in
    front of the list, newest first, and collected in [newNotifications]. *)
Lemma notifyLoop_created (fm : list App.ChatMessage.t) prev collected :
  ∃ created,
    App.notifyLoop clk conversationId uid lastSeen fm (prev, collected)
      = (rev created ++ prev, collected ++ created)
    ∧ Forall (λ n, ∃ msg, msg ∈ fm ∧ qualifies msg = true
                    ∧ n = App.newNotif clk conversationId msg
                    ∧ App.Notification.id n ∉ map App.Notification.id prev) created
    ∧ NoDup (map App.Notification.id created).
Proof.
  revert prev collected.
  induction fm as [|msg fm IH]; intros prev collected.
  { exists []. simpl. rewrite app_nil_r. repeat split; constructor. }
  unfold App.notifyLoop. simpl. unfold App.notifyStep at 2.
  rewrite notifyStep_guard. simpl.
  destruct (qualifies msg) eqn:Hq;
    [destruct (App.notificationExists (App.notificationId msg) prev) eqn:Hex|].
  - destruct (IH prev collected) as (created & Heq & Hall & Hnd).
    exists created. split; [exact Heq|]. split; [|done].
    eapply Forall_impl; [exact Hall|]. intros n (m & Hin & Hrest). exists m.
    rewrite elem_of_cons. split; [by right|exact Hrest].
  - set (n0 := App.newNotif clk conversationId msg).
    destruct (IH (n0 :: prev) (collected ++ [n0])) as (created & Heq & Hall & Hnd).
    exists (n0 :: created). split; [|split].
    + fold (App.notifyLoop clk conversationId uid lastSeen fm
              (n0 :: prev, collected ++ [n0])).
      rewrite Heq. simpl. by rewrite <- !app_assoc.
    + constructor.
      * exists msg. rewrite elem_of_cons. repeat split; auto.
        by apply notificationExists_false.
      * eapply Forall_impl; [exact Hall|]. intros n (m & ? & ? & ? & Hn).
        exists m. rewrite elem_of_cons. repeat split; auto.
        intros Hin. apply Hn. simpl. by right.
    + simpl. constructor; [|done].
      rewrite Forall_forall in Hall. intros Hin.
      apply list_elem_of_fmap in Hin as (n & Hid & Hn).
      destruct (Hall n Hn) as (m & _ & _ & _ & Hfresh).
      apply Hfresh. rewrite <- Hid. simpl. by left.
  - destruct (IH prev collected) as (created & Heq & Hall & Hnd).
    exists created. split; [exact Heq|]. split; [|done].
    eapply Forall_impl; [exact Hall|]. intros n (m & Hin & Hrest). exists m.
    rewrite elem_of_cons. split; [by right|exact Hrest].
Qed.

(** After the loop every qualifying message has its notification. *)
Lemma notifyLoop_covers (fm : list App.ChatMessage.t) prev collected msg :
  msg ∈ fm → qualifies msg = true →
  App.notificationId msg
    ∈ map App.Notification.id
        (App.notifyLoop clk conversationId uid lastSeen fm (prev, collected)).1.
Proof.
  revert prev collected.
  induction fm as [|m fm IH]; intros prev collected Hin Hq; [inversion Hin|].
  unfold App.notifyLoop. simpl. unfold App.notifyStep at 2.
  rewrite notifyStep_guard. simpl.
  apply elem_of_cons in Hin as [->|Hin].
  - rewrite Hq.
    destruct (App.notificationExists (App.notificationId m) prev) eqn:Hex.
    + destruct (notifyLoop_created fm prev collected) as (created & Heq & _).
      unfold App.notifyLoop in Heq. rewrite Heq. simpl.
      rewrite map_app, elem_of_app. right. by apply notificationExists_spec.
    + destruct (notifyLoop_created fm
                  (App.newNotif clk conversationId m :: prev)
                  (collected ++ [App.newNotif clk conversationId m]))
        as (created & Heq & _).
      unfold App.notifyLoop in Heq. rewrite Heq. simpl.
      rewrite map_app, elem_of_app. right. simpl. by left.
  - destruct (qualifies m);
      [destruct (App.notificationExists (App.notificationId m) prev)|];
      by apply IH.
Qed.

(** The loop does nothing when every qualifying message is notified. *)
Lemma notifyLoop_idle (fm : list App.ChatMessage.t) prev collected :
  (∀ msg, msg ∈ fm → qualifies msg = true →
          App.notificationId msg ∈ map App.Notification.id prev) →
  App.notifyLoop clk conversationId uid lastSeen fm (prev, collected)
    = (prev, collected).
Proof.
  induction fm as [|m fm IH]; intros Hall; [done|].
  unfold App.notifyLoop. simpl. unfold App.notifyStep at 2.
  rewrite notifyStep_guard. simpl.
  assert (∀ msg, msg ∈ fm → qualifies msg = true →
            App.notificationId msg ∈ map App.Notification.id prev) as Hfm.
  { intros msg Hin. apply Hall. by right. }
  destruct (qualifies m) eqn:Hq; [|by apply IH].
  assert (App.notificationExists (App.notificationId m) prev = true) as ->.
  { apply notificationExists_spec, Hall; [by left|done]. }
  by apply IH.
Qed.

Lemma notifyLoop_app (fm1 fm2 : list App.ChatMessage.t)
    (acc : list App.Notification.t * list App.Notification.t) :
  App.notifyLoop clk conversationId uid lastSeen (fm1 ++ fm2) acc
  = App.notifyLoop clk conversationId uid lastSeen fm2
      (App.notifyLoop clk conversationId uid lastSeen fm1 acc).
Proof. unfold App.notifyLoop. apply foldl_app. Qed.

(** The loop changes its accumulator only at the messages for which it calls
    [setNotifications]. *)
Lemma notifyLoop_notifiedMessages (fm : list App.ChatMessage.t)
    (acc : list App.Notification.t * list App.Notification.t) :
  App.notifyLoop clk conversationId uid lastSeen
    (App.notifiedMessages uid lastSeen fm) acc
  = App.notifyLoop clk conversationId uid lastSeen fm acc.
Proof.
  revert acc. induction fm as [|m fm IH]; intros acc; [done|].
  unfold App.notifiedMessages. rewrite filter_cons.
  destruct (decide _) as [Hq|Hq].
  - unfold App.notifyLoop. simpl. apply IH.
  - apply not_true_is_false in Hq.
    unfold App.notifyLoop at 2. simpl. unfold App.notifyStep at 2.
    rewrite Hq. apply IH.
Qed.

(** However many updaters have run, [newNotifications] holds no more than
    the loop creates in all. *)
Lemma newNotificationsWhen_le ran (fm : list App.ChatMessage.t) prev :
  length (App.newNotificationsWhen ran clk conversationId uid lastSeen fm prev)
  ≤ length (App.notifyLoop clk conversationId uid lastSeen fm (prev, [])).2.
Proof.
  unfold App.newNotificationsWhen.
  rewrite <- (notifyLoop_notifiedMessages fm).
  rewrite <- (take_drop ran (App.notifiedMessages uid lastSeen fm)) at 2.
  rewrite notifyLoop_app.
  destruct (notifyLoop_created (take ran (App.notifiedMessages uid lastSeen fm))
              prev []) as (c1 & -> & _).
  destruct (notifyLoop_created (drop ran (App.notifiedMessages uid lastSeen fm))
              (rev c1 ++ prev) ([] ++ c1)) as (c2 & -> & _).
  simpl. rewrite length_app. lia.
Qed.

Lemma newNotificationsWhen_0 (fm : list App.ChatMessage.t) prev :
  App.newNotificationsWhen 0 clk conversationId uid lastSeen fm prev = [].
Proof. reflexivity. Qed.

Lemma countedNotifications_le (fm : list App.ChatMessage.t) prev :
  countedNotifications clk conversationId uid lastSeen fm prev
  ≤ length (App.notifyLoop clk conversationId uid lastSeen fm (prev, [])).2.
Proof.
  unfold countedNotifications. case_bool_decide; [|lia].
  apply newNotificationsWhen_le.
Qed.

(** When no updater has run at the test, the counter is left alone. *)
Lemma countedNotifications_deferred (fm : list App.ChatMessage.t) prev :
  updatersRun clk = 0 →
  countedNotifications clk conversationId uid lastSeen fm prev = 0.
Proof.
  intros H0. unfold countedNotifications. rewrite H0, newNotificationsWhen_0.
  by rewrite bool_decide_eq_false_2 by (simpl; lia).
Qed.

Lemma countedNotifications_idle (fm : list App.ChatMessage.t) prev :
  (∀ msg, msg ∈ fm → qualifies msg = true →
          App.notificationId msg ∈ map App.Notification.id prev) →
  countedNotifications clk conversationId uid lastSeen fm prev = 0.
Proof.
  intros Hall. pose proof (countedNotifications_le fm prev) as Hle.
  rewrite (notifyLoop_idle fm prev [] Hall) in Hle. simpl in Hle. lia.
Qed.

End notify_loop.

(** ** Reconciliation replaces the message list *)

Lemma load_resolved_store clk c response st :
  ∃ s, App.loadConversationMessages clk c (Resolved response) st
       = storeMessages c (formattedOf response) s.
Proof. unfold App.loadConversationMessages. eexists. reflexivity. Qed.

Lemma formattedOf_ids response :
  map App.ChatMessage.id (formattedOf response)
  = map RawMessage.id (responseMessages response).
Proof. unfold formattedOf. rewrite map_map. by apply map_ext. Qed.

Lemma load_stores_formatted clk c response st :
  App.chatMessages (App.loadConversationMessages clk c (Resolved response) st)
  = formattedOf response
  ∧ App.conversations (App.loadConversationMessages clk c (Resolved response) st) !! c
    = Some (formattedOf response).
Proof.
  destruct (load_resolved_store clk c response st) as [s ->].
  split; [reflexivity|]. simpl. apply lookup_insert_eq.
Qed.


(** ** A failed fetch *)

(** C7, as stated, fails in the Chat component: after a failed fetch its
    message list is empty, whatever it held before. *)
Lemma failed_fetch_clears_chat_messages :
  Chat.messages
    (Chat.loadMessages (Rejected (ErrorObject "Network error")) sample_chat_state)
  ≠ Chat.messages sample_chat_state.
Proof. discriminate. Qed.

(** C7, amended. When the fetch of the message history fails, the application
    ([loadConversationMessages]) shows one error toast and leaves the message
    list, the per-conversation lists, the notifications, the unread counter,
    the stored watermarks and the popup flag exactly as they were; the Chat
    component ([loadMessages]) records an error text and sets its message list
    to the empty list, leaving its other state as it was. *)
Theorem failed_fetch_state clk c e :
  (∀ st,
     let st' := App.loadConversationMessages clk c (Rejected e) st in
     App.chatMessages st' = App.chatMessages st
     ∧ App.conversations st' = App.conversations st
     ∧ App.notifications st' = App.notifications st
     ∧ App.unreadMessagesCount st' = App.unreadMessagesCount st
     ∧ App.localStorage st' = App.localStorage st
     ∧ App.showChatPopup st' = App.showChatPopup st
     ∧ App.toasts st'
       = App.toasts st
         ++ [App.Toast.mk (nowMs clk) App.error "Error"
               (errorMessageOr e "Failed to load messages")])
  ∧ (∀ st,
       let st' := Chat.loadMessages (Rejected e) st in
       Chat.messages st' = []
       ∧ Chat.error st' = Some ("Failed to load messages: " +:+ errorText e)
       ∧ Chat.conversations st' = Chat.conversations st
       ∧ Chat.users st' = Chat.users st
       ∧ Chat.typingUsers st' = Chat.typingUsers st).
Proof. split; intros st; repeat split. Qed.

(** ** First load *)

Lemma newestId_formatted response :
  App.ChatMessage.id <$> last (formattedOf response) = newestId response.
Proof.
  unfold formattedOf, newestId. rewrite last_map_formatMessage.
  by destruct (last (responseMessages response)).
Qed.

Lemma formattedOf_nonempty response :
  responseMessages response ≠ [] → ∃ latest, last (formattedOf response) = Some latest.
Proof.
  intros Hne. unfold formattedOf. rewrite last_map_formatMessage.
  destruct (last (responseMessages response)) eqn:E; [eauto|].
  by apply last_None in E.
Qed.

Lemma watermark_setItem c v st :
  watermark c (App.setItem (App.lastSeenKey c) v st) = Some v.
Proof. unfold watermark, App.getItem. simpl. apply lookup_insert_eq. Qed.

(** C3. On the first load of a conversation that has history and no stored
    watermark, reconcile creates no notification (the list keeps its entries,
    at most marked read when the chat is open), does not raise the unread
    counter, and writes the identifier of the newest fetched message as the
    watermark. *)
Theorem first_load_sets_watermark_silently clk c response st :
  watermark c st = None →
  responseMessages response ≠ [] →
  let st' := App.loadConversationMessages clk c (Resolved response) st in
  App.notifications st'
    = (if App.showChatPopup st
       then App.markConversationRead c (App.notifications st)
       else App.notifications st)
  ∧ length (App.notifications st') = length (App.notifications st)
  ∧ map App.Notification.id (App.notifications st')
    = map App.Notification.id (App.notifications st)
  ∧ App.unreadMessagesCount st' ≤ App.unreadMessagesCount st
  ∧ (∃ newest, last (responseMessages response) = Some newest
               ∧ watermark c st' = Some (RawMessage.id newest)).
Proof.
  intros Hw Hne st'.
  destruct (formattedOf_nonempty response Hne) as [latest Hl].
  assert (∃ newest, last (responseMessages response) = Some newest
                    ∧ App.ChatMessage.id latest = RawMessage.id newest) as Hnew.
  { unfold formattedOf in Hl. rewrite last_map_formatMessage in Hl.
    destruct (last (responseMessages response)) as [newest|]; [|done].
    exists newest. split; [done|]. by simplify_eq/=. }
  destruct Hnew as (newest & Hlast & Hid).
  destruct (App.showChatPopup st) eqn:Hp.
  - subst st'. rewrite (load_open clk c response st latest Hp Hl). simpl.
    rewrite markConversationRead_length, markConversationRead_ids.
    repeat split; [lia|]. exists newest. split; [done|].
    rewrite <- Hid. unfold watermark, App.getItem. simpl. apply lookup_insert_eq.
  - subst st'. rewrite (load_first clk c response st latest Hp); [|by rewrite Hw|done].
    simpl. repeat split; [lia|]. exists newest. split; [done|].
    rewrite <- Hid. unfold watermark, App.getItem. simpl. apply lookup_insert_eq.
Qed.

Lemma first_load_witness :
  watermark "c1" sample_state = None
  ∧ responseMessages sample_history ≠ []
  ∧ App.notifications
      (App.loadConversationMessages sample_clock "c1" (Resolved sample_history)
         sample_state) = []
  ∧ watermark "c1"
      (App.loadConversationMessages sample_clock "c1" (Resolved sample_history)
         sample_state) = Some "m2".
Proof.
  assert (watermark "c1" sample_state = None) as Hw by reflexivity.
  assert (responseMessages sample_history ≠ []) as Hne by discriminate.
  destruct (first_load_sets_watermark_silently sample_clock "c1" sample_history
              sample_state Hw Hne) as (Hn & _ & _ & _ & newest & Hlast & Hwm).
  split; [exact Hw|]. split; [exact Hne|]. split; [exact Hn|].
  rewrite Hwm. simpl in Hlast. by simplify_eq.
Defined.

(** ** Opening a conversation *)

(** C5, as stated, fails: the notification that the WebSocket handler has
    created for a message of the conversation is of type [comment_added],
    and the reconcile that runs with the popup shown leaves it unread. *)
Lemma pushed_notification_stays_unread :
  map (λ n, (App.Notification.type n, App.Notification.data n, App.Notification.read n))
    (App.notifications sample_pushed_state)
  = [(App.comment_added, App.PushRef "m3" (Some "u2") (Some "c1"), false)]
  ∧ App.showChatPopup (App.toggleChatPopup sample_pushed_state) = true
  ∧ map (λ n, (App.Notification.type n, App.Notification.data n, App.Notification.read n))
      (App.notifications
         (App.loadConversationMessages sample_clock "c1" (Resolved sample_history3)
            (App.toggleChatPopup sample_pushed_state)))
    = [(App.comment_added, App.PushRef "m3" (Some "u2") (Some "c1"), false)].
Proof. repeat split; reflexivity. Qed.

(** The interval of the poll effect keeps the popup flag of the render that
    started it.  Started while the chat was closed, its reconcile after the
    click on the chat button still takes the chat as closed: the
    notification of the conversation stays unread and the watermark stays
    where it was. *)
Lemma stale_poll_after_opening :
  App.showChatPopup
    (run [ToggleChat; Poll sample_clock sample_closed_closure "c1"
                        (Resolved sample_history3)] sample_unread_state) = true
  ∧ map App.Notification.read
      (App.notifications
         (run [ToggleChat; Poll sample_clock sample_closed_closure "c1"
                             (Resolved sample_history3)] sample_unread_state))
    = [false]
  ∧ watermark "c1"
      (run [ToggleChat; Poll sample_clock sample_closed_closure "c1"
                          (Resolved sample_history3)] sample_unread_state)
    = Some "m2".
Proof. repeat split; reflexivity. Qed.

(** C5, amended. The click on the chat button that opens the chat shows the
    popup and zeroes the unread counter.  A reconcile of conversation [c]
    that reads the popup as shown and fetches at least one message leaves
    the unread counter at 0, marks read exactly the notifications of type
    [new_message] whose [data.conversationId] is [c], leaves every other
    notification as it is, and stores the identifier of the last fetched
    message as the watermark of [c]. *)
Theorem opening_conversation_marks_seen clk c response :
  responseMessages response ≠ [] →
  (∀ st, App.showChatPopup st = false →
         App.showChatPopup (App.toggleChatPopup st) = true
         ∧ App.unreadMessagesCount (App.toggleChatPopup st) = 0)
  ∧ (∀ st, App.showChatPopup st = true →
       let st' := App.loadConversationMessages clk c (Resolved response) st in
       App.unreadMessagesCount st' = 0
       ∧ App.notifications st' = App.markConversationRead c (App.notifications st)
       ∧ length (App.notifications st') = length (App.notifications st)
       ∧ (∀ i n, App.notifications st !! i = Some n →
                 App.notifications st' !! i
                 = Some (if decide (App.Notification.type n = App.new_message
                                    ∧ App.data_conversationId (App.Notification.data n)
                                      = Some c)
                         then App.Notification.mk (App.Notification.id n)
                                (App.Notification.type n) (App.Notification.title n)
                                (App.Notification.message n) true
                                (App.Notification.timestamp n) (App.Notification.data n)
                         else n))
       ∧ (∃ newest, last (responseMessages response) = Some newest
                    ∧ watermark c st' = Some (RawMessage.id newest))).
Proof.
  intros Hne. split.
  - intros st Hp. unfold App.toggleChatPopup. rewrite Hp. by simpl.
  - intros st Hp st'.
    destruct (formattedOf_nonempty response Hne) as [latest Hl].
    subst st'. rewrite (load_open clk c response st latest Hp Hl). state_field.
    split; [done|]. split; [done|]. split; [apply markConversationRead_length|].
    split.
    + intros i n Hi. unfold App.markConversationRead.
      rewrite list_lookup_fmap, Hi. simpl. f_equal.
      unfold App.isMessageNotificationOf.
      destruct (decide _) as [[Hty Hdata]|Hno].
      * by rewrite !bool_decide_eq_true_2.
      * case_bool_decide as Hty; [|done]. case_bool_decide as Hdata; [|done].
        by destruct Hno.
    + unfold formattedOf in Hl. rewrite last_map_formatMessage in Hl.
      destruct (last (responseMessages response)) as [newest|]; [|done].
      exists newest. split; [done|]. simplify_eq/=.
      unfold watermark, App.getItem. simpl. apply lookup_insert_eq.
Qed.

Lemma opening_conversation_witness :
  responseMessages sample_history3 ≠ []
  ∧ App.showChatPopup sample_unread_state = false
  ∧ App.unreadMessagesCount
      (App.loadConversationMessages sample_clock "c1" (Resolved sample_history3)
         (App.toggleChatPopup sample_unread_state)) = 0
  ∧ map App.Notification.read
      (App.notifications
         (App.loadConversationMessages sample_clock "c1" (Resolved sample_history3)
            (App.toggleChatPopup sample_unread_state))) = [true]
  ∧ watermark "c1"
      (App.loadConversationMessages sample_clock "c1" (Resolved sample_history3)
         (App.toggleChatPopup sample_unread_state)) = Some "m3".
Proof.
  assert (responseMessages sample_history3 ≠ []) as Hne by discriminate.
  destruct (opening_conversation_marks_seen sample_clock "c1" sample_history3 Hne)
    as [Hclick Hload].
  destruct (Hclick sample_unread_state eq_refl) as [Hshown _].
  destruct (Hload (App.toggleChatPopup sample_unread_state) Hshown)
    as (Hu & Hn & _ & _ & newest & Hlast & Hwm).
  split; [exact Hne|]. split; [reflexivity|]. split; [exact Hu|].
  split; [by rewrite Hn|].
  rewrite Hwm. simpl in Hlast. by simplify_eq.
Defined.

(** ** The watermark *)

(** C2, as stated, fails: a reconcile while the chat is open writes the
    identifier of the last fetched message over a higher stored one. *)
Lemma watermark_regresses :
  watermark "c1" sample_open_state = Some "m5"
  ∧ watermark "c1"
      (App.loadConversationMessages sample_clock "c1"
         (Resolved sample_short_history) sample_open_state) = Some "m3"
  ∧ String.ltb "m3" "m5" = true.
Proof. repeat split; reflexivity. Qed.

Lemma lastSeenKey_inj c c' : App.lastSeenKey c = App.lastSeenKey c' → c = c'.
Proof. unfold App.lastSeenKey. apply (inj (String.app "lastSeenMessage_")). Qed.

Lemma watermark_setItem_ne c c' v st :
  c ≠ c' → watermark c' (App.setItem (App.lastSeenKey c) v st) = watermark c' st.
Proof.
  intros Hne. unfold watermark, App.getItem. simpl.
  apply lookup_insert_ne. intros H. by apply Hne, lastSeenKey_inj.
Qed.

(** The only writes of [loadConversationMessages] to [localStorage]. *)
Lemma load_localStorage clk c result st :
  let st' := App.loadConversationMessages clk c result st in
  App.localStorage st' = App.localStorage st
  ∨ ∃ response newest,
      result = Resolved response
      ∧ newestId response = Some newest
      ∧ (App.showChatPopup st = true ∨ truthy (watermark c st) = false)
      ∧ App.localStorage st' = <[App.lastSeenKey c := newest]> (App.localStorage st).
Proof.
  intros st'. subst st'. destruct result as [response|e]; [|by left].
  destruct (decide (responseMessages response = [])) as [E|Hne].
  { left. by rewrite load_empty. }
  destruct (formattedOf_nonempty response Hne) as [latest Hl].
  assert (newestId response = Some (App.ChatMessage.id latest)) as Hnew.
  { rewrite <- newestId_formatted. by rewrite Hl. }
  destruct (App.showChatPopup st) eqn:Hp.
  { right. exists response, (App.ChatMessage.id latest).
    rewrite (load_open clk c response st latest Hp Hl). auto. }
  destruct (truthy (watermark c st)) eqn:Ht.
  - left. apply truthy_inv in Ht as (w & Hw & Hwne).
    rewrite (load_closed clk c response st w Hp Hw Hwne); [done|].
    intros E. by rewrite E in Hl.
  - right. exists response, (App.ChatMessage.id latest).
    rewrite (load_first clk c response st latest Hp Ht Hl). auto.
Qed.

(** No other operation writes to [localStorage]. *)
Lemma step_localStorage op st :
  (∀ clk c result, op ≠ Reconcile clk c result) →
  (∀ clk seen c result, op ≠ Poll clk seen c result) →
  App.localStorage (step st op) = App.localStorage st.
Proof.
  intros Hop Hpoll.
  destruct op as [clk c result|clk event|clk c result| |id|clk seen c result| ]; simpl.
  - by destruct (Hop clk c result).
  - unfold App.onmessage. destruct event as [[[m|]| | | | | | |]|]; try done.
    by case_bool_decide.
  - by destruct result.
  - unfold App.toggleChatPopup. by destruct (App.showChatPopup st).
  - unfold App.markNotificationAsRead.
    destruct (List.find _ _) as [n|]; [|done].
    destruct (App.Notification.type n); try done.
    destruct (App.data_conversationId _) as [c|]; [|done].
    unfold truthy. by destruct (decide (c = "")).
  - by destruct (Hpoll clk seen c result).
  - done.
Qed.

Lemma watermark_le_refl a : watermark_le a a.
Proof. destruct a; simpl; [reflexivity|done]. Qed.

Lemma watermark_le_trans a b c :
  watermark_le a b → watermark_le b c → watermark_le a c.
Proof.
  destruct a, b, c; simpl; try done. intros ??. by etrans.
Qed.

Lemma load_watermark_le clk c0 result c st :
  (∀ response w newest,
     result = Resolved response → c0 = c → watermark c st = Some w →
     newestId response = Some newest → String.le w newest) →
  watermark_le (watermark c st)
    (watermark c (App.loadConversationMessages clk c0 result st)).
Proof.
  intros Hord. destruct (load_localStorage clk c0 result st)
    as [Heq|(response & newest & -> & Hnew & _ & Heq)].
  - unfold watermark, App.getItem. rewrite Heq. apply watermark_le_refl.
  - unfold watermark at 2. unfold App.getItem. rewrite Heq.
    destruct (decide (c0 = c)) as [->|Hne].
    + rewrite lookup_insert_eq. destruct (watermark c st) as [w|] eqn:Hw; [|done].
      simpl. by apply (Hord response w newest).
    + rewrite lookup_insert_ne; [apply watermark_le_refl|].
      intros H. by apply Hne, lastSeenKey_inj.
Qed.

Lemma step_watermark op st c :
  polls_in_order [op] st →
  watermark_le (watermark c st) (watermark c (step st op)).
Proof.
  intros [Hord _].
  destruct op as [clk c0 result|clk event|clk c0 result| |id|clk seen c0 result| ];
    try (unfold watermark, App.getItem; rewrite step_localStorage by done;
         apply watermark_le_refl).
  - simpl. apply load_watermark_le. intros response w newest -> -> Hw Hn.
    by apply (Hord w newest).
  - change (watermark c (step st (Poll clk seen c0 result)))
      with (watermark c (App.loadConversationMessages clk c0 result
                           (withClosure seen st))).
    change (watermark c st) with (watermark c (withClosure seen st)) at 1.
    apply load_watermark_le. intros response w newest -> -> Hw Hn.
    by apply (Hord w newest).
Qed.

(** C2, amended. The stored watermark of a conversation is written only by a
    successful reconcile of that conversation with a non-empty fetched list,
    on first load or while the chat is open, and the value written is the
    identifier of the last fetched message, whatever is stored; no live
    message, send, click on the chat button or on the close button and no
    mark-read writes it.  Hence along any sequence of operations whose
    fetched lists each end in an identifier not below the watermark stored at
    that time, the watermark never decreases. *)
Theorem watermark_monotone_when_polls_in_order ops st c :
  polls_in_order ops st →
  watermark_le (watermark c st) (watermark c (run ops st))
  ∧ (∀ clk c0 result s,
       watermark c (App.loadConversationMessages clk c0 result s) = watermark c s
       ∨ (c0 = c ∧ ∃ response, result = Resolved response
                   ∧ is_Some (newestId response)
                   ∧ (App.showChatPopup s = true ∨ truthy (watermark c s) = false)
                   ∧ watermark c (App.loadConversationMessages clk c0 result s)
                     = newestId response))
  ∧ (∀ op s, (∀ clk c0 result, op ≠ Reconcile clk c0 result) →
             (∀ clk seen c0 result, op ≠ Poll clk seen c0 result) →
             watermark c (step s op) = watermark c s).
Proof.
  intros Hord. split; [|split].
  - revert st Hord. induction ops as [|op ops IH]; intros st Hord.
    + apply watermark_le_refl.
    + destruct Hord as [Hop Hrest]. unfold run. simpl.
      eapply watermark_le_trans; [apply (step_watermark op st c); by split|].
      by apply IH.
  - intros clk c0 result s.
    destruct (load_localStorage clk c0 result s)
      as [Heq|(response & newest & -> & Hnew & Hwhen & Heq)].
    + left. unfold watermark, App.getItem. by rewrite Heq.
    + destruct (decide (c0 = c)) as [->|Hne].
      * right. split; [done|]. exists response. split; [done|].
        split; [by rewrite Hnew|]. split; [exact Hwhen|].
        unfold watermark, App.getItem. rewrite Heq, Hnew. apply lookup_insert_eq.
      * left. unfold watermark, App.getItem. rewrite Heq.
        apply lookup_insert_ne. intros H. by apply Hne, lastSeenKey_inj.
  - intros op s Hop Hpoll. unfold watermark, App.getItem.
    by rewrite step_localStorage.
Qed.

Lemma watermark_monotone_witness :
  polls_in_order sample_ops sample_state
  ∧ watermark "c1" sample_state = None
  ∧ watermark "c1" (run sample_ops sample_state) = Some "m3"
  ∧ watermark_le (watermark "c1" sample_state)
      (watermark "c1" (run sample_ops sample_state)).
Proof.
  assert (polls_in_order sample_ops sample_state) as Hord.
  { simpl. repeat split.
    - intros w newest Hw. vm_compute in Hw. discriminate.
    - intros w newest Hw Hn. vm_compute in Hw, Hn. by simplify_eq. }
  split; [exact Hord|]. split; [reflexivity|]. split; [reflexivity|].
  apply (watermark_monotone_when_polls_in_order sample_ops sample_state "c1" Hord).
Defined.

(** ** Notifications while the chat is closed *)




Lemma load_closed_fields clk c response st w :
  App.showChatPopup st = false → watermark c st = Some w → w ≠ "" →
  let st' := App.loadConversationMessages clk c (Resolved response) st in
  App.showChatPopup st' = false ∧ watermark c st' = Some w
  ∧ App.userId st' = App.userId st
  ∧ ∃ created,
      App.notifications st' = rev created ++ App.notifications st
      ∧ App.unreadMessagesCount st ≤ App.unreadMessagesCount st'
          ≤ App.unreadMessagesCount st + length created
      ∧ NoDup (map App.Notification.id created)
      ∧ Forall (λ n, ∃ msg, msg ∈ formattedOf response
                       ∧ App.isNewMessage (App.userId st) w msg = true
                       ∧ n = App.newNotif clk c msg
                       ∧ App.Notification.id n
                           ∉ map App.Notification.id (App.notifications st)) created
      ∧ (∀ msg, msg ∈ formattedOf response →
                App.isNewMessage (App.userId st) w msg = true →
                App.notificationId msg
                  ∈ map App.Notification.id (App.notifications st')).
Proof.
  intros Hp Hw Hne st'. subst st'.
  destruct (decide (formattedOf response = [])) as [E|Hf].
  - rewrite load_empty; [|by apply (fmap_nil_inv App.formatMessage)].
    repeat split; try done. exists []. simpl. rewrite E.
    repeat split; try done; try constructor; try lia.
    intros msg Hin. inversion Hin.
  - rewrite (load_closed clk c response st w Hp Hw Hne Hf).
    pose proof (notifyLoop_covers clk c (App.userId st) w (formattedOf response)
                  (App.notifications st) []) as Hcov.
    pose proof (countedNotifications_le clk c (App.userId st) w
                  (formattedOf response) (App.notifications st)) as Hle.
    destruct (notifyLoop_created clk c (App.userId st) w (formattedOf response)
                (App.notifications st) []) as (created & Heq & Hall & Hnd).
    rewrite Heq in Hcov, Hle |- *. simpl in Hcov, Hle |- *.
    repeat split; try done. exists created. repeat split; auto; lia.
Qed.

(** The unread counter after a poll depends on when React runs the updaters:
    when none has run at the test after the loop, the counter is left as it
    was, however many notifications the poll creates. *)
Lemma deferred_updaters_leave_counter clk c response st w :
  App.showChatPopup st = false → watermark c st = Some w → w ≠ "" →
  updatersRun clk = 0 →
  App.unreadMessagesCount (App.loadConversationMessages clk c (Resolved response) st)
  = App.unreadMessagesCount st.
Proof.
  intros Hp Hw Hne H0.
  destruct (decide (formattedOf response = [])) as [E|Hf].
  - by rewrite load_empty by (by apply (fmap_nil_inv App.formatMessage)).
  - rewrite (load_closed clk c response st w Hp Hw Hne Hf).
    state_field.
    rewrite countedNotifications_deferred by done. lia.
Qed.

Lemma poll_counter_waits_for_updaters :
  map App.Notification.id
    (App.notifications
       (App.loadConversationMessages sample_clock "c1" (Resolved sample_history5)
          sample_closed_state))
  = ["msg_m5"; "msg_m4"; "msg_m3"]
  ∧ App.unreadMessagesCount
      (App.loadConversationMessages sample_clock "c1" (Resolved sample_history5)
         sample_closed_state) = 0
  ∧ App.unreadMessagesCount
      (App.loadConversationMessages sample_idle_clock "c1" (Resolved sample_history5)
         sample_closed_state) = 3.
Proof. repeat split; reflexivity. Qed.



(** ** Messages of the current user *)






(** ** Messages without a sender *)

(** C10. A raw message that carries no [sender_id], no [author_id] and no
    nested [author.id] is normalized to the empty sender identifier; as the
    empty string is not the identifier of the current user, the message
    counts as coming from another user, and a reconcile that fetches it while
    the chat is closed, with a stored watermark below its identifier and no
    notification for it yet, creates its notification; it raises the unread
    counter by one when React has run the updater of that notification at
    the test after the loop, and leaves the counter when the updater has not
    run by then. *)
Theorem senderless_message_counts_as_other clk c msg st w :
  RawMessage.sender_id msg = None →
  RawMessage.author_id msg = None →
  RawMessage.author msg ≫= Author.id = None →
  App.userId st ≠ Some "" →
  App.ChatMessage.userId (App.formatMessage msg) = ""
  ∧ App.isFromOtherUser (App.userId st) (App.formatMessage msg) = true
  ∧ (App.showChatPopup st = false → watermark c st = Some w → w ≠ "" →
     String.ltb w (RawMessage.id msg) = true →
     App.notificationId (App.formatMessage msg)
       ∉ map App.Notification.id (App.notifications st) →
     let st' := App.loadConversationMessages clk c (Resolved (RespArray [msg])) st in
     App.notifications st'
       = App.newNotif clk c (App.formatMessage msg) :: App.notifications st
     ∧ (0 < updatersRun clk →
        App.unreadMessagesCount st' = App.unreadMessagesCount st + 1)
     ∧ (updatersRun clk = 0 →
        App.unreadMessagesCount st' = App.unreadMessagesCount st)).
Proof.
  intros Hs Ha Hn Hu.
  assert (App.ChatMessage.userId (App.formatMessage msg) = "") as Hid.
  { unfold App.formatMessage. simpl. by rewrite Hs, Ha, Hn. }
  assert (App.isFromOtherUser (App.userId st) (App.formatMessage msg) = true) as Hother.
  { unfold App.isFromOtherUser. rewrite Hid. apply bool_decide_eq_true.
    intros H. by apply Hu. }
  split; [exact Hid|]. split; [exact Hother|].
  intros Hp Hw Hne Hlt Hfresh st'. subst st'.
  assert (formattedOf (RespArray [msg]) ≠ []) as Hf by done.
  assert (App.isNewMessage (App.userId st) w (App.formatMessage msg) = true) as Hnew.
  { unfold App.isNewMessage. by rewrite Hother, formatMessage_id, Hlt. }
  apply notificationExists_false in Hfresh.
  rewrite (load_closed clk c (RespArray [msg]) st w Hp Hw Hne Hf).
  split; [|split].
  - unfold formattedOf, App.notifyLoop. simpl. unfold App.notifyStep.
    cbn [fst snd]. rewrite Hnew, Hother, Hfresh. by simpl.
  - intros Hrun.
    state_field.
    f_equal. unfold countedNotifications, App.newNotificationsWhen,
      App.notifiedMessages, formattedOf.
    cbn [responseMessages map]. rewrite filter_cons_True by (by rewrite Hnew, Hother).
    rewrite filter_nil.
    destruct (updatersRun clk) as [|k]; [lia|].
    cbn [take Nat.add]. rewrite !take_nil.
    unfold App.notifyLoop. cbn [foldl]. unfold App.notifyStep.
    cbn [fst snd]. rewrite Hnew, Hother, Hfresh. reflexivity.
  - intros Hrun.
    state_field.
    rewrite countedNotifications_deferred by done. lia.
Qed.

Lemma senderless_message_witness :
  RawMessage.sender_id sample_senderless = None
  ∧ RawMessage.author_id sample_senderless = None
  ∧ RawMessage.author sample_senderless ≫= Author.id = None
  ∧ App.userId sample_closed_state ≠ Some ""
  ∧ App.showChatPopup sample_closed_state = false
  ∧ watermark "c1" sample_closed_state = Some "m2"
  ∧ String.ltb "m2" (RawMessage.id sample_senderless) = true
  ∧ 0 < updatersRun sample_idle_clock
  ∧ App.unreadMessagesCount
      (App.loadConversationMessages sample_idle_clock "c1"
         (Resolved (RespArray [sample_senderless])) sample_closed_state) = 1
  ∧ map App.Notification.id
      (App.notifications
         (App.loadConversationMessages sample_idle_clock "c1"
            (Resolved (RespArray [sample_senderless])) sample_closed_state))
    = ["msg_m3"].
Proof.
  assert (App.userId sample_closed_state ≠ Some "") as Hu by discriminate.
  assert ("m2" ≠ "") as Hne by discriminate.
  assert (App.notificationId (App.formatMessage sample_senderless)
            ∉ map App.Notification.id (App.notifications sample_closed_state))
    as Hfresh by (simpl; apply not_elem_of_nil).
  assert (0 < updatersRun sample_idle_clock) as Hrun by (simpl; lia).
  destruct (senderless_message_counts_as_other sample_idle_clock "c1"
              sample_senderless sample_closed_state "m2" eq_refl eq_refl eq_refl Hu)
    as (_ & _ & Hload).
  destruct (Hload eq_refl eq_refl Hne eq_refl Hfresh) as (Hnotifs & Hunread & _).
  do 3 (split; [reflexivity|]). split; [exact Hu|].
  do 3 (split; [reflexivity|]). split; [exact Hrun|].
  split; [exact (Hunread Hrun)|]. by rewrite Hnotifs.
Defined.

(** ** Duplicates in the message list *)

(** C1, as stated, fails.  In the application a message delivered by the
    WebSocket is not put into the message list at all, and in the Chat
    component a pushed message is dropped again by a load whose answer does
    not hold it: in both cases the delivered identifier [m3] is not in the
    final list. *)
Lemma pushed_message_missing_from_list :
  map App.ChatMessage.id
    (App.chatMessages
       (run [Reconcile sample_clock "c1" (Resolved sample_history);
             sample_push "m3" "u2" "ping"] sample_closed_state))
  = ["m1"; "m2"]
  ∧ map RawMessage.id
      (Chat.messages
         (chatRun [ChatLive (Some "u1")
                     (chat_message (Some (sample_raw "m3" "u2" "ping")));
                   ChatLoad (Resolved sample_history)] sample_chat_state))
    = ["m1"; "m2"].
Proof. split; reflexivity. Qed.

(** The application's [sendMessageAPI] appends without a look at the list:
    when the poll has already fetched the message the user has just posted,
    the answer to the post puts its identifier into the list a second time,
    until the next reconcile replaces the list. *)
Lemma send_after_poll_duplicates :
  map App.ChatMessage.id
    (App.chatMessages
       (run [Reconcile sample_clock "c1" (Resolved sample_history_with_sent);
             Send sample_clock "c1" (Resolved sample_sent)] sample_open_state))
  = ["m1"; "m2"; "m3"; "m3"].
Proof. reflexivity. Qed.

Lemma hasMessage_spec id (prev : list RawMessage.t) :
  Chat.hasMessage id prev = true ↔ id ∈ map RawMessage.id prev.
Proof.
  unfold Chat.hasMessage. rewrite existsb_exists, list_elem_of_fmap.
  split.
  - intros (m & Hin & Hm). exists m. apply bool_decide_eq_true in Hm.
    split; [done|]. by apply list_elem_of_In.
  - intros (m & -> & Hin). exists m. split; [by apply list_elem_of_In|].
    by apply bool_decide_eq_true.
Qed.

Lemma appendUnlessPresent_NoDup message (prev : list RawMessage.t) :
  NoDup (map RawMessage.id prev) →
  NoDup (map RawMessage.id (Chat.appendUnlessPresent message prev)).
Proof.
  intros Hnd. unfold Chat.appendUnlessPresent.
  destruct (Chat.hasMessage (RawMessage.id message) prev) eqn:Hhas; [done|].
  rewrite map_app. simpl. apply NoDup_app. split; [done|]. split.
  - intros id Hin Hin'. apply list_elem_of_singleton in Hin'. subst id.
    apply hasMessage_spec in Hin. congruence.
  - apply NoDup_singleton.
Qed.

Lemma appendUnlessPresent_elem message (prev : list RawMessage.t) :
  RawMessage.id message ∈ map RawMessage.id (Chat.appendUnlessPresent message prev).
Proof.
  unfold Chat.appendUnlessPresent.
  destruct (Chat.hasMessage (RawMessage.id message) prev) eqn:Hhas.
  - by apply hasMessage_spec.
  - rewrite map_app, elem_of_app. right. simpl. by left.
Qed.

Lemma filter_ids_NoDup (P : RawMessage.t → Prop) `{∀ m, Decision (P m)}
    (l : list RawMessage.t) :
  NoDup (map RawMessage.id l) → NoDup (map RawMessage.id (filter P l)).
Proof.
  induction l as [|m l IH]; simpl; [done|].
  intros Hnd. apply NoDup_cons in Hnd as [Hm Hl].
  rewrite filter_cons. destruct (decide (P m)); [|by apply IH].
  simpl. apply NoDup_cons. split; [|by apply IH].
  intros Hin. apply Hm. apply list_elem_of_fmap in Hin as (m' & Hid & Hin).
  apply list_elem_of_filter in Hin as [_ Hin].
  apply list_elem_of_fmap. by exists m'.
Qed.

Lemma chatStep_NoDup op st :
  fetched_without_duplicates [op] →
  NoDup (map RawMessage.id (Chat.messages st)) →
  NoDup (map RawMessage.id (Chat.messages (chatStep st op))).
Proof.
  intros Hop Hnd. apply Forall_cons in Hop as [Hop _].
  destruct op as [[response|e]|uid data|[message|e]|id [[]|e]]; simpl; try done.
  - apply NoDup_nil_2.
  - destruct data as [[message|]| | | |mid| | |]; simpl; try done.
    + by apply appendUnlessPresent_NoDup.
    + by destruct (decide (Some user_id ≠ uid)).
    + by apply filter_ids_NoDup.
  - by apply appendUnlessPresent_NoDup.
  - by apply filter_ids_NoDup.
Qed.

(** C1, amended.  A successful reconcile makes the application's message
    list hold exactly the fetched identifiers, in the fetched order, and the
    application's live handler never changes that list.  In the Chat
    component a live [chat_message] and an answered send append the message
    only when its identifier is not in the list, so the delivered identifier
    is in the list afterwards, and along any sequence of loads, live events,
    sends and deletions whose fetched lists are free of duplicates a list
    without duplicate identifiers stays without duplicates. *)
Theorem message_list_free_of_duplicates :
  (∀ clk c response st,
     map App.ChatMessage.id
       (App.chatMessages
          (App.loadConversationMessages clk c (Resolved response) st))
     = map RawMessage.id (responseMessages response))
  ∧ (∀ clk event st,
       App.chatMessages (App.onmessage clk event st) = App.chatMessages st)
  ∧ (∀ ops st,
       fetched_without_duplicates ops →
       NoDup (map RawMessage.id (Chat.messages st)) →
       NoDup (map RawMessage.id (Chat.messages (chatRun ops st))))
  ∧ (∀ uid message st,
       RawMessage.id message
         ∈ map RawMessage.id
             (Chat.messages (Chat.handleData uid (chat_message (Some message)) st)))
  ∧ (∀ message st,
       RawMessage.id message
         ∈ map RawMessage.id (Chat.messages (Chat.sendMessage (Resolved message) st))).
Proof.
  split; [|split; [|split; [|split]]].
  - intros clk c response st.
    destruct (load_stores_formatted clk c response st) as [-> _].
    apply formattedOf_ids.
  - intros clk event st. unfold App.onmessage.
    destruct event as [[[m|]| | | | | | |]|]; try done. by case_bool_decide.
  - intros ops. induction ops as [|op ops IH]; intros st Hops Hnd; [done|].
    apply Forall_cons in Hops as [Hop Hops]. unfold chatRun. simpl.
    apply IH; [done|]. apply chatStep_NoDup; [|done]. by constructor.
  - intros uid message st. simpl. apply appendUnlessPresent_elem.
  - intros message st. simpl. apply appendUnlessPresent_elem.
Qed.

Lemma message_list_witness :
  fetched_without_duplicates sample_chat_ops
  ∧ NoDup (map RawMessage.id (Chat.messages sample_chat_state))
  ∧ map RawMessage.id (Chat.messages (chatRun sample_chat_ops sample_chat_state))
    = ["m1"; "m2"; "m3"; "m4"]
  ∧ NoDup (map RawMessage.id
             (Chat.messages (chatRun sample_chat_ops sample_chat_state))).
Proof.
  assert (fetched_without_duplicates sample_chat_ops) as Hops.
  { repeat constructor; simpl.
    - intros Hin. apply list_elem_of_singleton in Hin. discriminate.
    - apply not_elem_of_nil. }
  assert (NoDup (map RawMessage.id (Chat.messages sample_chat_state))) as Hnd.
  { simpl. apply NoDup_singleton. }
  destruct message_list_free_of_duplicates as (_ & _ & Hrun & _).
  split; [exact Hops|]. split; [exact Hnd|]. split; [reflexivity|].
  exact (Hrun sample_chat_ops sample_chat_state Hops Hnd).
Defined.

(** ** Handlers on the shared socket *)

Lemma invoked_self h : h ∈ invoked h.
Proof.
  destruct h as [|[original|] uid toast|cid]; simpl; try by left.
  rewrite elem_of_app. right. by left.
Qed.

Lemma runHandler_chat original uid toast clk event w :
  runHandler (ChatHandler (Some original) uid toast) clk event w
  = chatOnMessage uid toast clk event (runHandler original clk event w).
Proof. reflexivity. Qed.

(** The socket that [connectWebSocket] creates has the application's handler
    and nothing else. *)
Lemma connectWebSocket_registered token wsRef ws :
  token ≠ "" → connectWebSocket token wsRef = Some ws → registered ws = [AppHandler].
Proof.
  intros Hne. unfold connectWebSocket. destruct (decide (token = "")); [done|].
  intros H. by simplify_eq.
Qed.

(** C8. Installing the chat handler on the shared socket is additive: every
    handler that ran on an incoming event before [connectSocket] still runs
    afterwards, because the new [onmessage] first calls the one it replaced
    and the listeners are not touched; on an open socket an event first goes
    through the previous [onmessage], then through the chat handler, then
    through the listeners.  The same holds for the listener that
    EnhancedChat adds. *)
Theorem chat_handler_is_additive uid toast cid (ws : WebSocket.t) :
  (∀ h, h ∈ invokedOnEvent ws → h ∈ invokedOnEvent (connectSocket uid toast ws))
  ∧ (∀ h, h ∈ invokedOnEvent ws → h ∈ invokedOnEvent (addMessageListener cid ws))
  ∧ (WebSocket.readyState ws = OPEN →
     ∀ clk event w,
       dispatch (connectSocket uid toast ws) clk event w
       = foldl (λ w h, runHandler h clk event w)
           (chatOnMessage uid toast clk event
              (match WebSocket.onmessage ws with
               | Some original => runHandler original clk event w
               | None => w
               end))
           (WebSocket.listeners ws))
  ∧ (∀ clk event w,
       dispatch (addMessageListener cid ws) clk event w
       = runHandler (EnhancedChatHandler cid) clk event (dispatch ws clk event w)).
Proof.
  split; [|split; [|split]].
  - intros h Hin. unfold connectSocket.
    destruct (decide (WebSocket.readyState ws = OPEN)); [|done].
    unfold invokedOnEvent, registered in *. simpl.
    rewrite bind_app, elem_of_app in Hin. destruct Hin as [Hin|Hin].
    + rewrite elem_of_app. left.
      destruct (WebSocket.onmessage ws) as [original|]; simpl in *.
      * rewrite app_nil_r in *. rewrite elem_of_app. by left.
      * inversion Hin.
    + rewrite elem_of_app. by right.
  - intros h Hin. unfold invokedOnEvent, registered in *. simpl.
    rewrite app_assoc, bind_app, elem_of_app. by left.
  - intros Hopen clk event w. unfold connectSocket.
    destruct (decide (WebSocket.readyState ws = OPEN)); [|done].
    unfold dispatch, registered. simpl.
    by destruct (WebSocket.onmessage ws).
  - intros clk event w. unfold dispatch, registered. simpl.
    by rewrite app_assoc, foldl_app.
Qed.

Lemma chat_handler_additive_witness :
  AppHandler ∈ invokedOnEvent sample_socket
  ∧ WebSocket.readyState sample_socket = OPEN
  ∧ AppHandler ∈ invokedOnEvent (connectSocket (Some "u1") true sample_socket)
  ∧ AppHandler
      ∈ invokedOnEvent
          (addMessageListener "u1" (connectSocket (Some "u1") true sample_socket))
  ∧ map App.Notification.id
      (App.notifications
         (app (dispatch (connectSocket (Some "u1") true sample_socket) sample_clock
                 (Some (chat_message (Some (sample_raw "m3" "u2" "ping"))))
                 sample_world)))
    = ["1700000000000"].
Proof.
  assert (AppHandler ∈ invokedOnEvent sample_socket) as Hin by (by left).
  destruct (chat_handler_is_additive (Some "u1") true "u1" sample_socket)
    as (Hchat & _ & Hrun & _).
  destruct (chat_handler_is_additive (Some "u1") true "u1"
              (connectSocket (Some "u1") true sample_socket))
    as (_ & Hlistener & _ & _).
  split; [exact Hin|]. split; [reflexivity|].
  split; [exact (Hchat AppHandler Hin)|].
  split; [exact (Hlistener AppHandler (Hchat AppHandler Hin))|].
  by rewrite (Hrun eq_refl).
Defined.

(** * Further properties of the code

Properties of the functions embedded above that the statements so far do
not cover, and of the further functions of the same sources:
[removeToast], [markAllNotificationsAsRead], [getOrCreateConversation] and
[logout] of the application, and [createConversation] of the Chat
component. *)

(** ** Excerpts *)

Lemma string_length_app (s1 s2 : string) :
  String.length (s1 +:+ s2) = String.length s1 + String.length s2.
Proof. induction s1 as [|a s1 IH]; simpl; [done|]. by rewrite IH. Qed.

Lemma substring_prefix_length (n : nat) (s : string) :
  n ≤ String.length s → String.length (String.substring 0 n s) = n.
Proof.
  revert s. induction n as [|n IH]; intros s Hn.
  - by destruct s.
  - destruct s as [|a s]; simpl in *; [lia|]. rewrite IH; [done|lia].
Qed.

(** The excerpt that notifications and toasts show ([preview 40], [preview 50],
    [preview 100]) is the text itself when the text has at most [n]
    characters, and otherwise has exactly [n + 3] characters and starts with
    the first [n] characters of the text; so it never has more than [n + 3]. *)
Theorem preview_bounds (n : nat) (s : string) :
  String.length (preview n s) ≤ n + 3
  ∧ (String.length s ≤ n → preview n s = s)
  ∧ (n < String.length s →
     String.length (preview n s) = n + 3
     ∧ String.substring 0 n (preview n s) = String.substring 0 n s).
Proof.
  unfold preview. destruct (decide (n < String.length s)) as [Hlt|Hge].
  - assert (String.length (String.substring 0 n s +:+ "...") = n + 3) as Hlen.
    { rewrite string_length_app, substring_prefix_length by lia. done. }
    split; [lia|]. split; [lia|]. intros _. split; [done|].
    clear Hlen. revert s Hlt. induction n as [|n IH]; intros s Hlt.
    + simpl. by destruct s.
    + destruct s as [|a s]; simpl in *; [lia|].
      f_equal. apply IH. lia.
  - split; [lia|]. split; [done|lia].
Qed.

Lemma preview_bounds_witness :
  String.length "hello" ≤ 40
  ∧ 5 < String.length "hello world"
  ∧ preview 40 "hello" = "hello"
  ∧ preview 5 "hello world" = "hello...".
Proof.
  destruct (preview_bounds 40 "hello") as (_ & Hshort & _).
  destruct (preview_bounds 5 "hello world") as (_ & _ & Hlong).
  assert (String.length "hello" ≤ 40) as H1 by (simpl; lia).
  assert (5 < String.length "hello world") as H2 by (simpl; lia).
  pose proof (Hlong H2) as _.
  split; [exact H1|]. split; [exact H2|]. split; [exact (Hshort H1)|reflexivity].
Defined.

(** ** Normalization *)

Lemma js_or_default_nonempty (a : option string) (d : string) :
  d ≠ "" → js_or_default a d ≠ "".
Proof.
  intros Hd. destruct a as [s|]; simpl; [|done].
  by destruct (decide (s = "")).
Qed.

Lemma js_or_default_truthy (s : string) (b : option string) (d : string) :
  s ≠ "" → js_or_default (js_or (Some s) b) d = s.
Proof.
  intros Hs. unfold js_or. rewrite truthy_Some_ne by done. simpl.
  by destruct (decide (s = "")).
Qed.

(** A normalized message always has a display name and an avatar: they are
    never the empty string, whatever fields the raw message carries.  A
    non-empty [sender_*] field wins over the [author_*] fields and the nested
    [author], and a non-empty [author_id] wins over the nested [author.id]
    when there is no usable [sender_id]. *)
Theorem formatMessage_fallbacks (msg : RawMessage.t) :
  App.ChatMessage.user (App.formatMessage msg) ≠ ""
  ∧ App.ChatMessage.avatar (App.formatMessage msg) ≠ ""
  ∧ (∀ s, RawMessage.sender_id msg = Some s → s ≠ "" →
          App.ChatMessage.userId (App.formatMessage msg) = s)
  ∧ (∀ s, RawMessage.sender_name msg = Some s → s ≠ "" →
          App.ChatMessage.user (App.formatMessage msg) = s)
  ∧ (∀ a, truthy (RawMessage.sender_id msg) = false →
          RawMessage.author_id msg = Some a → a ≠ "" →
          App.ChatMessage.userId (App.formatMessage msg) = a).
Proof.
  split; [by apply js_or_default_nonempty|].
  split; [by apply js_or_default_nonempty|].
  split; [|split].
  - intros s Hs Hne. unfold App.formatMessage. simpl. rewrite Hs.
    by apply js_or_default_truthy.
  - intros s Hs Hne. unfold App.formatMessage. simpl. rewrite Hs.
    by apply js_or_default_truthy.
  - intros a Hs Ha Hne. unfold App.formatMessage. simpl.
    unfold js_or at 1. rewrite Hs, Ha. by apply js_or_default_truthy.
Qed.

Lemma formatMessage_fallbacks_witness :
  truthy (RawMessage.sender_id sample_author_message) = false
  ∧ RawMessage.author_id sample_author_message = Some "u9"
  ∧ App.ChatMessage.userId (App.formatMessage sample_author_message) = "u9"
  ∧ App.ChatMessage.user (App.formatMessage sample_author_message) = "Nested"
  ∧ App.ChatMessage.avatar (App.formatMessage sample_author_message) = "U"
  ∧ App.ChatMessage.userId (App.formatMessage (sample_raw "m1" "u2" "hello")) = "u2".
Proof.
  destruct (formatMessage_fallbacks sample_author_message) as (_ & _ & _ & _ & Hauthor).
  destruct (formatMessage_fallbacks (sample_raw "m1" "u2" "hello"))
    as (_ & _ & Hsender & _).
  assert ("u9" ≠ "") as H9 by discriminate.
  assert ("u2" ≠ "") as H2 by discriminate.
  split; [reflexivity|]. split; [reflexivity|].
  split; [exact (Hauthor "u9" eq_refl eq_refl H9)|].
  split; [reflexivity|]. split; [reflexivity|].
  exact (Hsender "u2" eq_refl H2).
Defined.

(** ** Events that are not chat messages *)

Lemma world_eta (w : World) : mkWorld (app w) (chat w) (enhanced w) = w.
Proof. by destruct w. Qed.

Lemma runHandler_unparseable (h : Handler) (clk : Clock) (w : World) :
  runHandler h clk None w = w.
Proof.
  revert h. fix IH 1. intros [|[original|] uid toast|cid]; simpl.
  - apply world_eta.
  - by rewrite (IH original).
  - done.
  - apply world_eta.
Qed.

(** An event whose data is not JSON changes nothing: whatever handlers are
    on the socket, after its delivery the state of all three components is
    what it was.  The application's own handler also ignores every parsed
    event that is not a [chat_message] carrying a message. *)
Theorem malformed_event_changes_nothing (clk : Clock) :
  (∀ ws w, dispatch ws clk None w = w)
  ∧ (∀ data st, (∀ message, data ≠ chat_message (Some message)) →
                App.onmessage clk (Some data) st = st).
Proof.
  split.
  - intros ws w. unfold dispatch.
    induction (registered ws) as [|h hs IH] in w |- *; simpl; [done|].
    by rewrite runHandler_unparseable.
  - intros data st Hdata. unfold App.onmessage.
    destruct data as [[m|]| | | | | | |]; try done. by destruct (Hdata m).
Qed.

Lemma malformed_event_witness :
  (∀ message, user_typing "u2" ≠ chat_message (Some message))
  ∧ App.onmessage sample_clock (Some (user_typing "u2")) sample_closed_state
    = sample_closed_state
  ∧ dispatch (addMessageListener "u1" (connectSocket (Some "u1") true sample_socket))
      sample_clock None sample_world = sample_world.
Proof.
  destruct (malformed_event_changes_nothing sample_clock) as [Hbad Hother].
  assert (∀ message, user_typing "u2" ≠ chat_message (Some message)) as Hne
    by (intros message; discriminate).
  split; [exact Hne|]. split; [exact (Hother _ _ Hne)|]. apply Hbad.
Defined.

(** ** Toasts *)

(** Dismissing the toast that was just shown removes it, and with it every
    older toast that carries the same clock reading as its identifier; the
    toasts with other identifiers stay, in their order. *)
Theorem removeToast_after_showToast clk ty title message st :
  App.toasts (App.removeToast (nowMs clk) (App.showToast clk ty title message st))
  = filter (λ t, App.Toast.id t ≠ nowMs clk) (App.toasts st)
  ∧ (∀ id, id ∉ map App.Toast.id (App.toasts st) →
           App.toasts (App.removeToast id st) = App.toasts st).
Proof.
  split.
  - simpl. rewrite filter_app. rewrite filter_cons_False by (simpl; intros H; by apply H).
    by rewrite filter_nil, app_nil_r.
  - intros id Hid. simpl. induction (App.toasts st) as [|t ts IH]; [done|].
    rewrite filter_cons_True.
    + f_equal. apply IH. intros Hin. apply Hid. simpl. by right.
    + intros Heq. apply Hid. simpl. rewrite Heq. by left.
Qed.

Lemma removeToast_witness :
  ("42" ∉ map App.Toast.id (App.toasts sample_state))
  ∧ App.toasts (App.removeToast "42" sample_state) = App.toasts sample_state
  ∧ App.toasts
      (App.removeToast (nowMs sample_clock)
         (App.showToast sample_clock App.info "Saved" "Done" sample_state)) = [].
Proof.
  destruct (removeToast_after_showToast sample_clock App.info "Saved" "Done"
              sample_state) as [Hshown Hother].
  assert ("42" ∉ map App.Toast.id (App.toasts sample_state)) as Hid
    by (simpl; apply not_elem_of_nil).
  split; [exact Hid|]. split; [exact (Hother "42" Hid)|]. by rewrite Hshown.
Defined.

(** ** The chat button *)

(** The chat button flips the popup flag, so two clicks leave the flag as it
    was; a click that opens the chat zeroes the unread counter, a click that
    closes it keeps the counter; no click touches notifications, message
    lists or stored watermarks. *)
Lemma toggleChatPopup_effects st :
  App.showChatPopup (App.toggleChatPopup st) = negb (App.showChatPopup st)
  ∧ App.showChatPopup (App.toggleChatPopup (App.toggleChatPopup st))
    = App.showChatPopup st
  ∧ App.unreadMessagesCount (App.toggleChatPopup st)
    = (if App.showChatPopup st then App.unreadMessagesCount st else 0)
  ∧ App.unreadMessagesCount (App.toggleChatPopup (App.toggleChatPopup st))
    = 0
  ∧ App.notifications (App.toggleChatPopup st) = App.notifications st
  ∧ App.chatMessages (App.toggleChatPopup st) = App.chatMessages st
  ∧ App.conversations (App.toggleChatPopup st) = App.conversations st
  ∧ App.localStorage (App.toggleChatPopup st) = App.localStorage st.
Proof.
  unfold App.toggleChatPopup. destruct (App.showChatPopup st) eqn:Hp; simpl;
    rewrite ?Hp; simpl; repeat split.
Qed.

(** ** Marking notifications read *)

Lemma find_markRead_map id (l : list App.Notification.t) :
  List.find (λ n, bool_decide (App.Notification.id n = id))
    (map (λ n, if decide (App.Notification.id n = id)
               then App.Notification.markRead n else n) l)
  = App.Notification.markRead
      <$> List.find (λ n, bool_decide (App.Notification.id n = id)) l.
Proof.
  induction l as [|n l IH]; simpl; [done|].
  destruct (decide (App.Notification.id n = id)) as [Heq|Hne].
  - simpl. by rewrite !bool_decide_eq_true_2.
  - by rewrite !bool_decide_eq_false_2.
Qed.

Lemma markRead_map_idem id (l : list App.Notification.t) :
  map (λ n, if decide (App.Notification.id n = id)
            then App.Notification.markRead n else n)
    (map (λ n, if decide (App.Notification.id n = id)
               then App.Notification.markRead n else n) l)
  = map (λ n, if decide (App.Notification.id n = id)
              then App.Notification.markRead n else n) l.
Proof.
  rewrite map_map. apply map_ext. intros n.
  destruct (decide (App.Notification.id n = id)) as [Heq|Hne]; simpl.
  - by rewrite decide_True.
  - by rewrite decide_False.
Qed.

Lemma markNotificationAsRead_unfold id st :
  App.markNotificationAsRead id st
  = App.setNotifications
      (map (λ n, if decide (App.Notification.id n = id)
                 then App.Notification.markRead n else n))
      (match opensConversation id st with
       | Some c => App.setSelectedConversationId (Some c) (App.setShowChatPopup true st)
       | None => st
       end).
Proof.
  unfold App.markNotificationAsRead, opensConversation.
  destruct (List.find _ _) as [n|]; [|done].
  destruct (App.Notification.type n); try done.
  destruct (App.data_conversationId _) as [c|]; [|done].
  unfold truthy. by destruct (decide (c = "")).
Qed.

Lemma opensConversation_marked id st s :
  App.notifications s
  = map (λ n, if decide (App.Notification.id n = id)
              then App.Notification.markRead n else n) (App.notifications st) →
  opensConversation id s = opensConversation id st.
Proof.
  intros Hs. unfold opensConversation. rewrite Hs, find_markRead_map.
  by destruct (List.find _ _) as [n|].
Qed.

Lemma markNotificationAsRead_notifications id st :
  App.notifications (App.markNotificationAsRead id st)
  = map (λ n, if decide (App.Notification.id n = id)
              then App.Notification.markRead n else n) (App.notifications st).
Proof.
  rewrite markNotificationAsRead_unfold. simpl.
  by destruct (opensConversation id st).
Qed.

Lemma markNotificationAsRead_unread id st :
  App.unreadMessagesCount (App.markNotificationAsRead id st)
  = App.unreadMessagesCount st.
Proof.
  rewrite markNotificationAsRead_unfold. simpl.
  by destruct (opensConversation id st).
Qed.

Lemma load_showChatPopup clk c result st :
  App.showChatPopup (App.loadConversationMessages clk c result st)
  = App.showChatPopup st.
Proof.
  destruct result as [response|e]; [|done].
  unfold App.loadConversationMessages. simpl.
  repeat (case_match; simpl; try done).
Qed.

(** A click on a notification marks read every entry with that identifier
    and no other, keeps the entries and their order, leaves the unread
    message counter, the message lists and the stored watermarks alone, and
    a second click on the same notification changes nothing any more. *)
Theorem markNotificationAsRead_effects id st :
  let st' := App.markNotificationAsRead id st in
  App.notifications st'
    = map (λ n, if decide (App.Notification.id n = id)
                then App.Notification.markRead n else n) (App.notifications st)
  ∧ map App.Notification.id (App.notifications st')
    = map App.Notification.id (App.notifications st)
  ∧ (∀ n, n ∈ App.notifications st' → App.Notification.id n = id →
          App.Notification.read n = true)
  ∧ App.unreadMessagesCount st' = App.unreadMessagesCount st
  ∧ App.chatMessages st' = App.chatMessages st
  ∧ App.localStorage st' = App.localStorage st
  ∧ App.markNotificationAsRead id st' = st'.
Proof.
  intros st'. subst st'. rewrite (markNotificationAsRead_unfold id st).
  set (F := map (λ n, if decide (App.Notification.id n = id)
                      then App.Notification.markRead n else n)).
  assert (∀ s, App.notifications (App.setNotifications F s) = F (App.notifications s))
    as HF by done.
  assert (App.notifications
            (match opensConversation id st with
             | Some c => App.setSelectedConversationId (Some c)
                           (App.setShowChatPopup true st)
             | None => st
             end) = App.notifications st) as Hnav
    by (by destruct (opensConversation id st)).
  split; [by rewrite HF, Hnav|]. split; [|split; [|split; [|split; [|split]]]].
  - rewrite HF, Hnav. unfold F. rewrite map_map. apply map_ext. intros n.
    by destruct (decide (App.Notification.id n = id)).
  - intros n Hin Hid. rewrite HF, Hnav in Hin.
    apply list_elem_of_fmap in Hin as (n0 & -> & _).
    destruct (decide (App.Notification.id n0 = id)) as [|Hne]; [done|].
    by destruct Hne.
  - by destruct (opensConversation id st).
  - by destruct (opensConversation id st).
  - by destruct (opensConversation id st).
  - rewrite markNotificationAsRead_unfold.
    rewrite (opensConversation_marked id st) by (by rewrite HF, Hnav).
    destruct (opensConversation id st) as [c|];
      unfold App.setNotifications, App.setSelectedConversationId,
        App.setShowChatPopup; simpl; f_equal; unfold F; apply markRead_map_idem.
Qed.

Lemma markNotificationAsRead_witness :
  App.newNotif sample_clock "c1" (App.formatMessage (sample_raw "m3" "u2" "ping"))
    ∈ App.notifications sample_unread_state
  ∧ map App.Notification.read
      (App.notifications (App.markNotificationAsRead "msg_m3" sample_unread_state))
    = [true]
  ∧ App.markNotificationAsRead "msg_m3"
      (App.markNotificationAsRead "msg_m3" sample_unread_state)
    = App.markNotificationAsRead "msg_m3" sample_unread_state.
Proof.
  pose proof (markNotificationAsRead_effects "msg_m3" sample_unread_state) as H.
  cbv zeta in H. destruct H as (Hn & _ & _ & _ & _ & _ & Hidem).
  split; [by left|]. split; [by rewrite Hn|exact Hidem].
Defined.

Lemma find_unique (n : App.Notification.t) (l : list App.Notification.t) :
  NoDup (map App.Notification.id l) → n ∈ l →
  List.find (λ x, bool_decide (App.Notification.id x = App.Notification.id n)) l
  = Some n.
Proof.
  induction l as [|x l IH]; intros Hnd Hin; [inversion Hin|].
  simpl in Hnd. apply NoDup_cons in Hnd as [Hx Hnd]. simpl.
  apply elem_of_cons in Hin as [->|Hin].
  - by rewrite bool_decide_eq_true_2.
  - rewrite bool_decide_eq_false_2; [by apply IH|].
    intros Heq. apply Hx. rewrite Heq. apply list_elem_of_fmap. eauto.
Qed.

(** A reconcile with the chat closed and a watermark keeps the notification
    identifiers unique. *)
Lemma load_closed_ids_NoDup clk c response st w :
  App.showChatPopup st = false → watermark c st = Some w → w ≠ "" →
  NoDup (map App.Notification.id (App.notifications st)) →
  NoDup (map App.Notification.id
           (App.notifications
              (App.loadConversationMessages clk c (Resolved response) st))).
Proof.
  intros Hp Hw Hwne Hnd.
  destruct (load_closed_fields clk c response st w Hp Hw Hwne)
    as (_ & _ & _ & created & -> & _ & Hcreated & Hall & _).
  rewrite map_app, map_rev. apply NoDup_app. split; [|split; [|done]].
  - apply NoDup_ListNoDup, List.NoDup_rev, NoDup_ListNoDup, Hcreated.
  - intros key Hin Hold. apply list_elem_of_In, in_rev, list_elem_of_In in Hin.
    apply list_elem_of_fmap in Hin as (n & -> & Hn).
    rewrite Forall_forall in Hall.
    by destruct (Hall n Hn) as (msg & _ & _ & _ & Hfresh).
Qed.

(** A click on a message notification of conversation [c] opens the chat on
    [c], wherever the notification is in a list of unique identifiers. *)
Lemma click_opens_conversation c n st :
  c ≠ "" → n ∈ App.notifications st →
  NoDup (map App.Notification.id (App.notifications st)) →
  App.Notification.type n = App.new_message →
  App.data_conversationId (App.Notification.data n) = Some c →
  let st' := App.markNotificationAsRead (App.Notification.id n) st in
  App.showChatPopup st' = true
  ∧ App.selectedConversationId st' = Some c
  ∧ App.unreadMessagesCount st' = App.unreadMessagesCount st.
Proof.
  intros Hc Hin Hnd Hty Hdata st'. subst st'.
  rewrite markNotificationAsRead_unfold. unfold opensConversation.
  rewrite (find_unique n _ Hnd Hin), Hty, Hdata.
  by rewrite decide_False by done.
Qed.

(** A click on a message notification of conversation [c], read or unread
    and wherever it is in a list of unique identifiers, shows the chat popup
    and selects [c]; this holds for every notification that a reconcile with
    the chat closed creates, not for the newest one only.  A click on a
    notification that the WebSocket handler (or any other [addNotification]
    with another type) has just added opens nothing.  Neither click changes
    the unread message counter. *)
Theorem notification_click_navigates c st :
  c ≠ "" →
  NoDup (map App.Notification.id (App.notifications st)) →
  (∀ n, n ∈ App.notifications st →
        App.Notification.type n = App.new_message →
        App.data_conversationId (App.Notification.data n) = Some c →
        let st' := App.markNotificationAsRead (App.Notification.id n) st in
        App.showChatPopup st' = true
        ∧ App.selectedConversationId st' = Some c
        ∧ App.unreadMessagesCount st' = App.unreadMessagesCount st)
  ∧ (∀ clk response w msg,
       App.showChatPopup st = false → watermark c st = Some w → w ≠ "" →
       msg ∈ formattedOf response →
       Some (App.ChatMessage.userId msg) ≠ App.userId st →
       String.ltb w (App.ChatMessage.id msg) = true →
       App.notificationId msg ∉ map App.Notification.id (App.notifications st) →
       let polled := App.loadConversationMessages clk c (Resolved response) st in
       let st' := App.markNotificationAsRead (App.notificationId msg) polled in
       App.showChatPopup st' = true
       ∧ App.selectedConversationId st' = Some c
       ∧ App.unreadMessagesCount st' = App.unreadMessagesCount polled)
  ∧ (∀ clk input,
       let pushed := App.addNotification clk input st in
       let st' := App.markNotificationAsRead (nowMs clk) pushed in
       App.NotificationInput.type input ≠ App.new_message →
       App.showChatPopup st' = App.showChatPopup st
       ∧ App.selectedConversationId st' = App.selectedConversationId st
       ∧ App.unreadMessagesCount st' = App.unreadMessagesCount st).
Proof.
  intros Hc Hnd. split; [|split].
  - intros n Hin Hty Hdata. by apply click_opens_conversation.
  - intros clk response w msg Hp Hw Hwne Hmsg Hother Hlt Hfresh polled st'.
    assert (App.isNewMessage (App.userId st) w msg = true) as Hq.
    { unfold App.isNewMessage, App.isFromOtherUser.
      by rewrite bool_decide_eq_true_2, Hlt by done. }
    pose proof (load_closed_ids_NoDup clk c response st w Hp Hw Hwne Hnd) as Hnd'.
    destruct (load_closed_fields clk c response st w Hp Hw Hwne)
      as (_ & _ & _ & created & Hn & _ & _ & Hall & Hcov).
    fold polled in Hnd', Hn, Hcov.
    specialize (Hcov msg Hmsg Hq). rewrite Hn, map_app, elem_of_app in Hcov.
    destruct Hcov as [Hin|Hin]; [|done].
    rewrite map_rev in Hin. apply list_elem_of_In, in_rev, list_elem_of_In in Hin.
    apply list_elem_of_fmap in Hin as (n & Hid & Hin).
    rewrite Forall_forall in Hall.
    destruct (Hall n Hin) as (msg' & _ & _ & Hnew & _).
    assert (n ∈ App.notifications polled) as Hin'.
    { rewrite Hn, elem_of_app. left.
      by apply list_elem_of_In, in_rev, list_elem_of_In in Hin. }
    subst st'. rewrite Hid.
    apply click_opens_conversation; try done; by rewrite Hnew.
  - intros clk input pushed st' Hty. subst st' pushed.
    rewrite markNotificationAsRead_unfold. unfold opensConversation. simpl.
    rewrite bool_decide_eq_true_2 by done. simpl.
    by destruct (App.NotificationInput.type input).
Qed.

Lemma notification_click_witness :
  "c1" ≠ ""
  ∧ NoDup (map App.Notification.id (App.notifications sample_closed_state))
  ∧ App.showChatPopup sample_closed_state = false
  ∧ map App.Notification.id
      (App.notifications
         (App.loadConversationMessages sample_clock "c1" (Resolved sample_history5)
            sample_closed_state))
    = ["msg_m5"; "msg_m4"; "msg_m3"]
  ∧ App.showChatPopup
      (App.markNotificationAsRead "msg_m3"
         (App.loadConversationMessages sample_clock "c1" (Resolved sample_history5)
            sample_closed_state)) = true
  ∧ App.selectedConversationId
      (App.markNotificationAsRead "msg_m3"
         (App.loadConversationMessages sample_clock "c1" (Resolved sample_history5)
            sample_closed_state)) = Some "c1".
Proof.
  assert ("c1" ≠ "") as Hc by discriminate.
  assert (NoDup (map App.Notification.id (App.notifications sample_closed_state)))
    as Hnd by constructor.
  assert ("m2" ≠ "") as Hw by discriminate.
  assert (App.formatMessage (sample_raw "m3" "u2" "ping")
            ∈ formattedOf sample_history5) as Hin
    by (right; right; left).
  assert (Some (App.ChatMessage.userId (App.formatMessage (sample_raw "m3" "u2" "ping")))
            ≠ App.userId sample_closed_state) as Hother by discriminate.
  assert (App.notificationId (App.formatMessage (sample_raw "m3" "u2" "ping"))
            ∉ map App.Notification.id (App.notifications sample_closed_state))
    as Hfresh by apply not_elem_of_nil.
  destruct (notification_click_navigates "c1" sample_closed_state Hc Hnd)
    as (_ & Hpolled & _).
  destruct (Hpolled sample_clock sample_history5 "m2"
              (App.formatMessage (sample_raw "m3" "u2" "ping"))
              eq_refl eq_refl Hw Hin Hother eq_refl Hfresh) as (Hshow & Hsel & _).
  split; [exact Hc|]. split; [exact Hnd|]. split; [reflexivity|].
  split; [reflexivity|]. split; [exact Hshow|exact Hsel].
Defined.

Lemma unread_filter_markRead (P : App.Notification.t → bool)
    (l : list App.Notification.t) :
  length (filter (λ n, App.Notification.read n = false)
            (map (λ n, if P n then App.Notification.markRead n else n) l))
  ≤ length (filter (λ n, App.Notification.read n = false) l).
Proof.
  induction l as [|n l IH]; simpl; [done|].
  rewrite !filter_cons.
  destruct (P n); simpl.
  - destruct (decide (App.Notification.read n = false)); simpl; lia.
  - destruct (decide (App.Notification.read n = false)); simpl; lia.
Qed.

(** "Mark all as read" leaves no unread notification, so the number on the
    bell is 0, and keeps every entry; a click on one notification never
    raises that number, and neither does a reconcile while the chat is open. *)
Theorem bell_count_after_marking st :
  App.unreadNotifications (App.markAllNotificationsAsRead st) = 0
  ∧ map App.Notification.id (App.notifications (App.markAllNotificationsAsRead st))
    = map App.Notification.id (App.notifications st)
  ∧ (∀ id, App.unreadNotifications (App.markNotificationAsRead id st)
           ≤ App.unreadNotifications st)
  ∧ (∀ clk c response,
       App.showChatPopup st = true →
       App.unreadNotifications
         (App.loadConversationMessages clk c (Resolved response) st)
       ≤ App.unreadNotifications st).
Proof.
  split; [|split; [|split]].
  - unfold App.unreadNotifications. simpl.
    induction (App.notifications st) as [|n l IH]; [done|].
    simpl. by rewrite filter_cons_False.
  - simpl. rewrite map_map. by apply map_ext.
  - intros id. unfold App.unreadNotifications.
    rewrite markNotificationAsRead_notifications.
    induction (App.notifications st) as [|n l IH]; simpl; [done|].
    rewrite !filter_cons.
    destruct (decide (App.Notification.id n = id)); simpl;
      destruct (decide (App.Notification.read n = false)); simpl; lia.
  - intros clk c response Hp. unfold App.unreadNotifications.
    destruct (decide (responseMessages response = [])) as [E|Hne].
    + by rewrite load_empty.
    + destruct (formattedOf_nonempty response Hne) as [latest Hl].
      rewrite (load_open clk c response st latest Hp Hl). simpl.
      apply unread_filter_markRead.
Qed.

Lemma bell_count_witness :
  App.showChatPopup sample_open_state = true
  ∧ App.unreadNotifications sample_unread_state = 1
  ∧ App.unreadNotifications (App.markAllNotificationsAsRead sample_unread_state) = 0
  ∧ App.unreadNotifications
      (App.loadConversationMessages sample_clock "c1" (Resolved sample_history3)
         sample_open_state) ≤ App.unreadNotifications sample_open_state.
Proof.
  destruct (bell_count_after_marking sample_unread_state) as (Hall & _).
  destruct (bell_count_after_marking sample_open_state) as (_ & _ & _ & Hload).
  split; [reflexivity|]. split; [reflexivity|]. split; [exact Hall|].
  exact (Hload sample_clock "c1" sample_history3 eq_refl).
Defined.

(** ** Sending a message *)

(** What the 401 branch of [apiCall] does before it throws. *)
Lemma sessionExpired_fields clk st :
  let st' := App.sessionExpired clk st in
  App.user st' = None
  ∧ App.toasts st'
    = App.toasts st
      ++ [App.Toast.mk (nowMs clk) App.warning "Session Expired" "Please login again"]
  ∧ App.localStorage st'
    = delete "organization" (delete "user" (delete "accessToken" (App.localStorage st)))
  ∧ (∀ c, watermark c st' = watermark c st)
  ∧ App.notifications st' = App.notifications st
  ∧ App.unreadMessagesCount st' = App.unreadMessagesCount st
  ∧ App.chatMessages st' = App.chatMessages st
  ∧ App.conversations st' = App.conversations st
  ∧ App.showChatPopup st' = App.showChatPopup st.
Proof.
  intros st'. subst st'. repeat split.
  intros c. unfold watermark, App.getItem. simpl.
  destruct (lastSeenKey_not_session_key c) as (H1 & H2 & H3).
  by rewrite !lookup_delete_ne by done.
Qed.

(** When the post is answered, [sendMessageAPI] puts the new message at the
    end of the shown list and at the end of the conversation's cached list
    (which it creates when the conversation has none), keeps the cached
    lists of all other conversations, and uses the current user's
    identifier as the sender when the answer names none; notifications,
    unread counter, toasts and [localStorage] are as before.  When the post
    fails, the [catch] block adds one error toast to the state that
    [apiCall] has left and changes nothing else.  [apiCall] leaves the state
    as it was unless the answer has status 401: then the user is forgotten,
    the three session keys are removed and the toasts "Session Expired" and
    "Error" are shown, while message lists, notifications, unread counter
    and every stored watermark are kept. *)
Theorem sendMessageAPI_effects clk c st :
  (∀ response,
     let st' := App.sendMessageAPI clk c (Resolved response) st in
     (∃ newMessage,
        App.chatMessages st' = App.chatMessages st ++ [newMessage]
        ∧ App.conversations st' !! c
          = Some (default [] (App.conversations st !! c) ++ [newMessage])
        ∧ App.ChatMessage.id newMessage = RawMessage.id response
        ∧ App.ChatMessage.message newMessage = RawMessage.content response
        ∧ (truthy (RawMessage.sender_id response) = false →
           truthy (RawMessage.author_id response) = false →
           App.ChatMessage.userId newMessage = js_or_default (App.userId st) ""))
     ∧ (∀ c', c' ≠ c → App.conversations st' !! c' = App.conversations st !! c')
     ∧ App.toasts st' = App.toasts st
     ∧ App.notifications st' = App.notifications st
     ∧ App.unreadMessagesCount st' = App.unreadMessagesCount st
     ∧ App.localStorage st' = App.localStorage st)
  ∧ (∀ e s,
       let st' := App.sendMessageAPI clk c (Rejected e) s in
       App.chatMessages st' = App.chatMessages s
       ∧ App.conversations st' = App.conversations s
       ∧ App.toasts st'
         = App.toasts s
           ++ [App.Toast.mk (nowMs clk) App.error "Error"
                 (errorMessageOr e "Failed to send message")]
       ∧ App.notifications st' = App.notifications s
       ∧ App.unreadMessagesCount st' = App.unreadMessagesCount s
       ∧ App.localStorage st' = App.localStorage s
       ∧ App.user st' = App.user s)
  ∧ (∀ clk0,
     let st' := App.sendMessageAPI clk c (Rejected App.sessionExpiredError)
                  (App.sessionExpired clk0 st) in
     App.user st' = None
     ∧ App.toasts st'
       = App.toasts st
         ++ [App.Toast.mk (nowMs clk0) App.warning "Session Expired" "Please login again";
             App.Toast.mk (nowMs clk) App.error "Error"
               "Session expired. Please login again."]
     ∧ App.localStorage st'
       = delete "organization"
           (delete "user" (delete "accessToken" (App.localStorage st)))
     ∧ (∀ c', watermark c' st' = watermark c' st)
     ∧ App.chatMessages st' = App.chatMessages st
     ∧ App.conversations st' = App.conversations st
     ∧ App.notifications st' = App.notifications st
     ∧ App.unreadMessagesCount st' = App.unreadMessagesCount st).
Proof.
  split; [|split].
  - intros response st'. subst st'. simpl. split; [|split].
    + eexists. split; [reflexivity|]. split; [apply lookup_insert_eq|].
      split; [reflexivity|]. split; [reflexivity|].
      intros Hs Ha. simpl. unfold js_or at 1. rewrite Hs.
      unfold js_or at 1. rewrite Ha. unfold App.userId. reflexivity.
    + intros c' Hne. by apply lookup_insert_ne.
    + done.
  - intros e s st'. by subst st'.
  - intros clk0. destruct (sessionExpired_fields clk0 st)
      as (Hu & Ht & Hl & Hw & Hn & Hc & Hm & Hcs & _).
    cbv zeta in *. unfold App.sendMessageAPI, App.showToast. state_field.
    rewrite Ht, <- app_assoc. repeat split; try done;
      intros c'; by rewrite <- (Hw c').
Qed.

Lemma sendMessageAPI_witness :
  truthy (RawMessage.sender_id sample_bare_response) = false
  ∧ truthy (RawMessage.author_id sample_bare_response) = false
  ∧ map App.ChatMessage.userId
      (App.chatMessages
         (App.sendMessageAPI sample_clock "c1" (Resolved sample_bare_response)
            sample_closed_state)) = ["u1"]
  ∧ App.conversations
      (App.sendMessageAPI sample_clock "c1" (Resolved sample_bare_response)
         sample_closed_state) !! "c2" = None
  ∧ watermark "c1"
      (App.sendMessageAPI sample_clock "c1" (Rejected App.sessionExpiredError)
         (App.sessionExpired sample_clock sample_closed_state)) = Some "m2".
Proof.
  destruct (sendMessageAPI_effects sample_clock "c1" sample_closed_state)
    as (Hok & _ & Hexpired).
  destruct (Hexpired sample_clock) as (_ & _ & _ & Hw & _).
  destruct (Hok sample_bare_response) as ((newMessage & Hcm & _ & _ & _ & Hsender) & Hother & _).
  assert ("c2" ≠ "c1") as Hne by discriminate.
  split; [reflexivity|]. split; [reflexivity|]. split; [|split].
  - rewrite Hcm. simpl. by rewrite (Hsender eq_refl eq_refl).
  - by rewrite (Hother "c2" Hne).
  - by rewrite (Hw "c1").
Defined.

(** ** What a reconcile leaves alone *)

(** A successful reconcile of one conversation does not show a toast, keeps
    the popup flag, the selected conversation, the user and the user list,
    and keeps the cached message list of every other conversation and every
    [localStorage] entry other than the watermark of the reconciled
    conversation. *)
Theorem reconcile_frame clk c response st :
  let st' := App.loadConversationMessages clk c (Resolved response) st in
  App.toasts st' = App.toasts st
  ∧ App.showChatPopup st' = App.showChatPopup st
  ∧ App.selectedConversationId st' = App.selectedConversationId st
  ∧ App.user st' = App.user st
  ∧ App.users st' = App.users st
  ∧ (∀ c', c' ≠ c → App.conversations st' !! c' = App.conversations st !! c')
  ∧ (∀ key, key ≠ App.lastSeenKey c →
            App.localStorage st' !! key = App.localStorage st !! key).
Proof.
  intros st'. subst st'.
  assert (∀ s, App.toasts (storeMessages c (formattedOf response) s) = App.toasts s
               ∧ App.showChatPopup (storeMessages c (formattedOf response) s)
                 = App.showChatPopup s
               ∧ App.selectedConversationId (storeMessages c (formattedOf response) s)
                 = App.selectedConversationId s
               ∧ App.user (storeMessages c (formattedOf response) s) = App.user s
               ∧ App.users (storeMessages c (formattedOf response) s) = App.users s
               ∧ (∀ c', c' ≠ c →
                    App.conversations (storeMessages c (formattedOf response) s) !! c'
                    = App.conversations s !! c')
               ∧ App.localStorage (storeMessages c (formattedOf response) s)
                 = App.localStorage s) as Hstore.
  { intros s. repeat split. intros c' Hne. simpl. by apply lookup_insert_ne. }
  destruct (decide (responseMessages response = [])) as [E|Hne].
  { rewrite load_empty by done.
    destruct (Hstore st) as (-> & -> & -> & -> & -> & Hc & ->). by repeat split. }
  destruct (formattedOf_nonempty response Hne) as [latest Hl].
  destruct (App.showChatPopup st) eqn:Hp.
  { rewrite (load_open clk c response st latest Hp Hl).
    destruct (Hstore (App.setNotifications (App.markConversationRead c)
                (App.setUnreadMessagesCount (λ _, 0)
                   (App.setItem (App.lastSeenKey c) (App.ChatMessage.id latest) st))))
      as (-> & -> & -> & -> & -> & Hc & ->).
    simpl. repeat split; try done.
    intros key Hkey. by apply lookup_insert_ne. }
  destruct (truthy (watermark c st)) eqn:Ht.
  - apply truthy_inv in Ht as (w & Hw & Hwne).
    assert (formattedOf response ≠ []) as Hf by (intros E; by rewrite E in Hl).
    rewrite (load_closed clk c response st w Hp Hw Hwne Hf).
    match goal with |- context [storeMessages c (formattedOf response) ?s] =>
      destruct (Hstore s) as (-> & -> & -> & -> & -> & Hc & ->) end.
    simpl. by repeat split.
  - rewrite (load_first clk c response st latest Hp Ht Hl).
    destruct (Hstore (App.setItem (App.lastSeenKey c) (App.ChatMessage.id latest) st))
      as (-> & -> & -> & -> & -> & Hc & ->).
    simpl. repeat split; try done.
    intros key Hkey. by apply lookup_insert_ne.
Qed.

Lemma reconcile_frame_witness :
  "c2" ≠ "c1"
  ∧ "accessToken" ≠ App.lastSeenKey "c1"
  ∧ App.conversations
      (App.loadConversationMessages sample_clock "c1" (Resolved sample_history)
         sample_state) !! "c2" = None
  ∧ App.localStorage
      (App.loadConversationMessages sample_clock "c1" (Resolved sample_history)
         sample_state) !! "accessToken" = None
  ∧ App.toasts
      (App.loadConversationMessages sample_clock "c1" (Resolved sample_history)
         sample_state) = [].
Proof.
  pose proof (reconcile_frame sample_clock "c1" sample_history sample_state) as H.
  cbv zeta in H. destruct H as (Ht & _ & _ & _ & _ & Hc & Hl).
  assert ("c2" ≠ "c1") as H1 by discriminate.
  assert ("accessToken" ≠ App.lastSeenKey "c1") as H2 by discriminate.
  split; [exact H1|]. split; [exact H2|]. split; [by rewrite (Hc "c2" H1)|].
  split; [by rewrite (Hl "accessToken" H2)|by rewrite Ht].
Defined.

(** ** Who changes the counters *)

(** Of the operations on the chat state, the unread message counter is
    changed only by a reconcile (called by a handler or by the interval of
    the poll effect) and by the chat button: a live message, a send, the
    close button of the popup and a click on a notification keep it.  The
    popup flag is changed only by the chat button, by the close button and
    by a click on a notification: a reconcile, a live message and a send
    keep it. *)
Theorem counter_and_popup_writers op st :
  ((∀ clk c result, op ≠ Reconcile clk c result) →
   (∀ clk seen c result, op ≠ Poll clk seen c result) →
   op ≠ ToggleChat →
   App.unreadMessagesCount (step st op) = App.unreadMessagesCount st)
  ∧ (op ≠ ToggleChat → op ≠ CloseChat → (∀ id, op ≠ MarkRead id) →
     App.showChatPopup (step st op) = App.showChatPopup st).
Proof.
  split.
  - intros Hrec Hpoll Htog.
    destruct op as [clk c result|clk event|clk c result| |id|clk seen c result| ];
      simpl.
    + by destruct (Hrec clk c result).
    + unfold App.onmessage. destruct event as [[[m|]| | | | | | |]|]; try done.
      by case_bool_decide.
    + by destruct result.
    + done.
    + apply markNotificationAsRead_unread.
    + by destruct (Hpoll clk seen c result).
    + done.
  - intros Htog Hclose Hmark.
    destruct op as [clk c result|clk event|clk c result| |id|clk seen c result| ];
      simpl.
    + apply load_showChatPopup.
    + unfold App.onmessage. destruct event as [[[m|]| | | | | | |]|]; try done.
      by case_bool_decide.
    + by destruct result.
    + done.
    + by destruct (Hmark id).
    + done.
    + done.
Qed.

Lemma counter_and_popup_witness :
  (∀ clk c result, sample_push "m3" "u2" "ping" ≠ Reconcile clk c result)
  ∧ (∀ clk seen c result, sample_push "m3" "u2" "ping" ≠ Poll clk seen c result)
  ∧ sample_push "m3" "u2" "ping" ≠ ToggleChat
  ∧ sample_push "m3" "u2" "ping" ≠ CloseChat
  ∧ (∀ id, sample_push "m3" "u2" "ping" ≠ MarkRead id)
  ∧ App.unreadMessagesCount (step sample_unread_state (sample_push "m3" "u2" "ping")) = 1
  ∧ App.showChatPopup (step sample_unread_state (sample_push "m3" "u2" "ping")) = false.
Proof.
  destruct (counter_and_popup_writers (sample_push "m3" "u2" "ping")
              sample_unread_state) as [Hcount Hpopup].
  assert (∀ clk c result, sample_push "m3" "u2" "ping" ≠ Reconcile clk c result)
    as H1 by (intros; discriminate).
  assert (∀ clk seen c result, sample_push "m3" "u2" "ping" ≠ Poll clk seen c result)
    as H1' by (intros; discriminate).
  assert (sample_push "m3" "u2" "ping" ≠ ToggleChat) as H2 by discriminate.
  assert (sample_push "m3" "u2" "ping" ≠ CloseChat) as H2' by discriminate.
  assert (∀ id, sample_push "m3" "u2" "ping" ≠ MarkRead id) as H3
    by (intros; discriminate).
  split; [exact H1|]. split; [exact H1'|]. split; [exact H2|]. split; [exact H2'|].
  split; [exact H3|].
  split; [exact (Hcount H1 H1' H2)|exact (Hpopup H2 H2' H3)].
Defined.

(** ** Notification keys *)

Lemma onmessage_pushed clk message st :
  RawMessage.sender_id message ≠ App.userId st →
  App.userId (App.onmessage clk (Some (chat_message (Some message))) st)
  = App.userId st
  ∧ ∃ n, App.notifications (App.onmessage clk (Some (chat_message (Some message))) st)
         = n :: App.notifications st
         ∧ App.Notification.id n = nowMs clk.
Proof.
  intros Hsender. unfold App.onmessage. rewrite bool_decide_eq_true_2 by done.
  split; [done|]. eexists. split; reflexivity.
Qed.

(** A reconcile keeps the notification identifiers unique: when no two
    entries share an identifier before it, none do after it.  The WebSocket
    path has no such guarantee: two pushed messages handled at the same clock
    reading get the same identifier. *)
Theorem reconcile_keeps_notification_ids_unique clk c result st :
  NoDup (map App.Notification.id (App.notifications st)) →
  NoDup (map App.Notification.id
           (App.notifications (App.loadConversationMessages clk c result st)))
  ∧ (∀ m1 m2,
       RawMessage.sender_id m1 ≠ App.userId st →
       RawMessage.sender_id m2 ≠ App.userId st →
       ¬ NoDup (map App.Notification.id
                  (App.notifications
                     (run [Live clk (Some (chat_message (Some m1)));
                           Live clk (Some (chat_message (Some m2)))] st)))).
Proof.
  intros Hnd. split.
  - destruct result as [response|e]; [|done].
    destruct (decide (responseMessages response = [])) as [E|Hne].
    { by rewrite load_empty. }
    destruct (formattedOf_nonempty response Hne) as [latest Hl].
    destruct (App.showChatPopup st) eqn:Hp.
    { rewrite (load_open clk c response st latest Hp Hl). simpl.
      by rewrite markConversationRead_ids. }
    destruct (truthy (watermark c st)) eqn:Ht.
    + apply truthy_inv in Ht as (w & Hw & Hwne).
      destruct (load_closed_fields clk c response st w Hp Hw Hwne)
        as (_ & _ & _ & created & -> & _ & Hcreated & Hall & _).
      rewrite map_app, map_rev. apply NoDup_app. split; [|split; [|done]].
      * apply NoDup_ListNoDup, List.NoDup_rev, NoDup_ListNoDup, Hcreated.
      * intros key Hin Hold. apply list_elem_of_In, in_rev, list_elem_of_In in Hin.
        apply list_elem_of_fmap in Hin as (n & -> & Hn).
        rewrite Forall_forall in Hall.
        by destruct (Hall n Hn) as (msg & _ & _ & _ & Hfresh).
    + by rewrite (load_first clk c response st latest Hp Ht Hl).
  - intros m1 m2 H1 H2. unfold run. cbn [foldl step].
    destruct (onmessage_pushed clk m1 st H1) as (Hu & n1 & Hn1 & Hid1).
    rewrite <- Hu in H2.
    destruct (onmessage_pushed clk m2 _ H2) as (_ & n2 & Hn2 & Hid2).
    rewrite Hn2, Hn1. simpl. rewrite Hid1, Hid2.
    intros Hdup. apply NoDup_cons in Hdup as [Hin _]. apply Hin. by left.
Qed.

Lemma notification_ids_witness :
  NoDup (map App.Notification.id (App.notifications sample_unread_state))
  ∧ RawMessage.sender_id (sample_raw "m4" "u3" "pong") ≠ App.userId sample_unread_state
  ∧ map App.Notification.id
      (App.notifications
         (App.loadConversationMessages sample_clock "c1" (Resolved sample_history5)
            sample_unread_state))
    = ["msg_m5"; "msg_m4"; "msg_m3"]
  ∧ NoDup (map App.Notification.id
             (App.notifications
                (App.loadConversationMessages sample_clock "c1"
                   (Resolved sample_history5) sample_unread_state))).
Proof.
  assert (NoDup (map App.Notification.id (App.notifications sample_unread_state)))
    as Hnd by (simpl; apply NoDup_singleton).
  destruct (reconcile_keeps_notification_ids_unique sample_clock "c1"
              (Resolved sample_history5) sample_unread_state Hnd) as [Hafter _].
  split; [exact Hnd|]. split; [discriminate|]. split; [reflexivity|exact Hafter].
Defined.

(** ** Polling twice *)

Lemma string_le_not_lt (a b : string) : String.le a b → String.ltb b a = false.
Proof.
  unfold String.le, String.leb, String.ltb. rewrite (String.compare_antisym b a).
  by destruct (String.compare a b).
Qed.

Lemma markConversationRead_idem c (l : list App.Notification.t) :
  App.markConversationRead c (App.markConversationRead c l)
  = App.markConversationRead c l.
Proof.
  unfold App.markConversationRead. rewrite map_map. apply map_ext. intros n.
  destruct (App.isMessageNotificationOf c n) eqn:Hm; [|by rewrite Hm].
  assert (App.isMessageNotificationOf c (App.Notification.markRead n) = true) as ->
    by done.
  done.
Qed.

Lemma storeMessages_twice c fm s :
  storeMessages c fm (storeMessages c fm s) = storeMessages c fm s.
Proof. apply state_eq; state_field; try reflexivity. apply insert_insert_eq. Qed.

(** A second reconcile with the same answer changes nothing: polling an
    unchanged history again leaves the whole state (message lists,
    notifications, unread counter, watermark) as the first poll left it,
    provided no fetched identifier sorts after that of the last fetched
    message. *)
Theorem reconcile_twice_is_once clk clk' c response st :
  (∀ m newest, m ∈ responseMessages response → newestId response = Some newest →
               String.le (RawMessage.id m) newest) →
  App.loadConversationMessages clk' c (Resolved response)
    (App.loadConversationMessages clk c (Resolved response) st)
  = App.loadConversationMessages clk c (Resolved response) st.
Proof.
  intros Hsorted.
  destruct (decide (responseMessages response = [])) as [E|Hne].
  { rewrite !load_empty by done. apply storeMessages_twice. }
  destruct (formattedOf_nonempty response Hne) as [latest Hl].
  assert (formattedOf response ≠ []) as Hf by (intros E; by rewrite E in Hl).
  assert (newestId response = Some (App.ChatMessage.id latest)) as Hnew
    by (rewrite <- newestId_formatted; by rewrite Hl).
  destruct (App.showChatPopup st) eqn:Hp.
  { assert (App.showChatPopup
              (App.loadConversationMessages clk c (Resolved response) st) = true)
      as Hp1 by (by rewrite load_showChatPopup).
    rewrite (load_open clk' c response _ latest Hp1 Hl).
    rewrite (load_open clk c response st latest Hp Hl).
    apply state_eq; state_field; try reflexivity;
      [apply markConversationRead_idem|apply insert_insert_eq
      |apply insert_insert_eq]. }
  destruct (truthy (watermark c st)) eqn:Ht.
  - apply truthy_inv in Ht as (w & Hw & Hwne).
    destruct (load_closed_fields clk c response st w Hp Hw Hwne)
      as (Hp' & Hw' & Hu' & created & Hn & _ & _ & _ & Hcov).
    rewrite (load_closed clk' c response _ w Hp' Hw' Hwne Hf).
    rewrite Hu'. rewrite notifyLoop_idle by done.
    rewrite countedNotifications_idle by done. cbn [fst snd].
    rewrite (load_closed clk c response st w Hp Hw Hwne Hf).
    apply state_eq; state_field; try reflexivity; [apply insert_insert_eq|lia].
  - rewrite (load_first clk c response st latest Hp Ht Hl).
    set (st1 := storeMessages c (formattedOf response)
                  (App.setItem (App.lastSeenKey c) (App.ChatMessage.id latest) st)).
    assert (App.showChatPopup st1 = false) as Hp1 by done.
    assert (watermark c st1 = Some (App.ChatMessage.id latest)) as Hw1.
    { unfold watermark, App.getItem, st1. state_field. apply lookup_insert_eq. }
    destruct (decide (App.ChatMessage.id latest = "")) as [Hempty|Hid].
    + rewrite (load_first clk' c response st1 latest Hp1); [|by rewrite Hw1, Hempty|done].
      unfold st1. apply state_eq; state_field; try reflexivity;
        apply insert_insert_eq.
    + assert (∀ msg, msg ∈ formattedOf response →
                App.isNewMessage (App.userId st1) (App.ChatMessage.id latest) msg = true →
                App.notificationId msg
                  ∈ map App.Notification.id (App.notifications st1)) as Hnone.
      { intros msg Hin Hq. exfalso.
        unfold formattedOf in Hin. apply list_elem_of_fmap in Hin as (m & -> & Hm).
        unfold App.isNewMessage in Hq. apply andb_true_iff in Hq as [_ Hlt].
        rewrite formatMessage_id in Hlt.
        rewrite (string_le_not_lt _ _ (Hsorted m _ Hm Hnew)) in Hlt. done. }
      rewrite (load_closed clk' c response st1 _ Hp1 Hw1 Hid Hf).
      rewrite notifyLoop_idle by done.
      rewrite countedNotifications_idle by done.
      unfold st1. cbn [fst snd].
      apply state_eq; state_field; try reflexivity; [apply insert_insert_eq|lia].
Qed.

Lemma reconcile_twice_witness :
  (∀ m newest, m ∈ responseMessages sample_history5 →
               newestId sample_history5 = Some newest →
               String.le (RawMessage.id m) newest)
  ∧ App.loadConversationMessages sample_clock "c1" (Resolved sample_history5)
      (App.loadConversationMessages sample_clock "c1" (Resolved sample_history5)
         sample_closed_state)
    = App.loadConversationMessages sample_clock "c1" (Resolved sample_history5)
        sample_closed_state.
Proof.
  assert (∀ m newest, m ∈ responseMessages sample_history5 →
                      newestId sample_history5 = Some newest →
                      String.le (RawMessage.id m) newest) as Hsorted.
  { intros m newest Hm Hn. vm_compute in Hn. simplify_eq.
    unfold sample_history5, responseMessages in Hm.
    repeat (apply elem_of_cons in Hm as [->|Hm]; [vm_compute; exact I|]).
    inversion Hm. }
  split; [exact Hsorted|].
  exact (reconcile_twice_is_once sample_clock sample_clock "c1" sample_history5
           sample_closed_state Hsorted).
Defined.

(** ** The Chat component: deleting, typing, presence *)

(** After a [message_deleted] event, and after an answered delete request, no
    message with that identifier is left and the other messages are kept in
    their order; a delete request that fails keeps the list and sets the
    error text. *)
Theorem chat_delete_removes_message uid mid st :
  (∀ r,
     let st' := Chat.deleteMessage mid (Resolved r) st in
     st' = Chat.handleData uid (message_deleted mid) st
     ∧ (mid ∉ map RawMessage.id (Chat.messages st'))
     ∧ Chat.messages st' = filter (λ m, RawMessage.id m ≠ mid) (Chat.messages st)
     ∧ (mid ∉ map RawMessage.id (Chat.messages st) →
        Chat.messages st' = Chat.messages st))
  ∧ (∀ e,
       Chat.messages (Chat.deleteMessage mid (Rejected e) st) = Chat.messages st
       ∧ Chat.error (Chat.deleteMessage mid (Rejected e) st)
         = Some "Failed to delete message").
Proof.
  split; [|done]. intros r st'. subst st'. simpl.
  split; [done|]. split; [|split; [done|]].
  - intros Hin. apply list_elem_of_fmap in Hin as (m & Hid & Hm).
    apply list_elem_of_filter in Hm as [Hne _]. by destruct Hne.
  - intros Hnot. induction (Chat.messages st) as [|m l IH]; [done|].
    rewrite filter_cons_True.
    + f_equal. apply IH. intros Hin. apply Hnot. simpl. by right.
    + intros Heq. apply Hnot. simpl. rewrite Heq. by left.
Qed.

Lemma chat_delete_witness :
  ("m9" ∉ map RawMessage.id (Chat.messages sample_chat_state))
  ∧ Chat.messages (Chat.deleteMessage "m9" (Resolved ()) sample_chat_state)
    = Chat.messages sample_chat_state
  ∧ Chat.messages (Chat.deleteMessage "m1" (Resolved ()) sample_chat_state) = [].
Proof.
  destruct (chat_delete_removes_message None "m9" sample_chat_state) as [Hok _].
  destruct (Hok ()) as (_ & _ & _ & Hkeep).
  assert ("m9" ∉ map RawMessage.id (Chat.messages sample_chat_state)) as Hnot.
  { simpl. intros Hin. apply list_elem_of_singleton in Hin. discriminate. }
  split; [exact Hnot|]. split; [exact (Hkeep Hnot)|reflexivity].
Defined.

Lemma filter_ne_NoDup (uid : string) (l : list string) :
  NoDup l → NoDup (filter (λ id, id ≠ uid) l ++ [uid]).
Proof.
  intros Hnd. apply NoDup_app. split; [by apply NoDup_filter|]. split.
  - intros x Hin Hx. apply list_elem_of_singleton in Hx. subst x.
    apply list_elem_of_filter in Hin as [Hne _]. by destruct Hne.
  - apply NoDup_singleton.
Qed.

(** A typing event of another user puts that user at the end of the typing
    list, exactly once however often the event arrives, and keeps the other
    typing users in their order; a typing event of the current user is
    ignored.  Typing events never touch the messages. *)
Theorem chat_typing_lists_user_once uid other st :
  Some other ≠ uid →
  let st' := Chat.handleData uid (user_typing other) st in
  Chat.typingUsers st' = filter (λ id, id ≠ other) (Chat.typingUsers st) ++ [other]
  ∧ Chat.typingUsers (Chat.handleData uid (user_typing other) st')
    = Chat.typingUsers st'
  ∧ (NoDup (Chat.typingUsers st) → NoDup (Chat.typingUsers st'))
  ∧ Chat.messages st' = Chat.messages st
  ∧ (∀ me, uid = Some me → Chat.handleData uid (user_typing me) st = st).
Proof.
  intros Hother st'. subst st'. simpl.
  rewrite !decide_True by done. simpl.
  split; [done|]. split; [|split; [|split]].
  - rewrite filter_app, filter_cons_False by (intros H; by apply H).
    rewrite filter_nil, app_nil_r. f_equal.
    rewrite list_filter_filter. apply list_filter_iff. intros x. tauto.
  - apply filter_ne_NoDup.
  - done.
  - intros me ->. by rewrite decide_False by (intros H; by apply H).
Qed.

Lemma chat_typing_witness :
  Some "u2" ≠ Some "u1"
  ∧ Chat.typingUsers (Chat.handleData (Some "u1") (user_typing "u2") sample_typing_state)
    = ["u3"; "u2"].
Proof.
  assert (Some "u2" ≠ Some "u1") as Hne by discriminate.
  destruct (chat_typing_lists_user_once (Some "u1") "u2" sample_typing_state Hne)
    as (Htyping & _).
  split; [exact Hne|]. by rewrite Htyping.
Defined.

(** Presence events change only the online flag of the users with the given
    identifier: the users, their identifiers and their order stay, a user
    with that identifier is online after [user_online] and offline after
    [user_offline], and a later event overrides an earlier one. *)
Theorem chat_presence_updates_flag uid who st :
  map Chat.User.id (Chat.users (Chat.handleData uid (user_online who) st))
  = map Chat.User.id (Chat.users st)
  ∧ map Chat.User.id (Chat.users (Chat.handleData uid (user_offline who) st))
    = map Chat.User.id (Chat.users st)
  ∧ (∀ u, u ∈ Chat.users (Chat.handleData uid (user_online who) st) →
          Chat.User.id u = who → Chat.User.is_online u = Some true)
  ∧ (∀ u, u ∈ Chat.users (Chat.handleData uid (user_offline who)
                             (Chat.handleData uid (user_online who) st)) →
          Chat.User.id u = who → Chat.User.is_online u = Some false)
  ∧ (∀ u, u ∈ Chat.users st → Chat.User.id u ≠ who →
          u ∈ Chat.users (Chat.handleData uid (user_online who) st)
          ∧ u ∈ Chat.users (Chat.handleData uid (user_offline who) st))
  ∧ Chat.messages (Chat.handleData uid (user_online who) st) = Chat.messages st.
Proof.
  simpl. split; [|split; [|split; [|split; [|split]]]].
  - rewrite map_map. apply map_ext. intros u. by destruct (decide _).
  - rewrite map_map. apply map_ext. intros u. by destruct (decide _).
  - intros u Hin Hid. apply list_elem_of_fmap in Hin as (u0 & -> & _).
    destruct (decide (Chat.User.id u0 = who)) as [|Hne]; [done|by destruct Hne].
  - intros u Hin Hid. apply list_elem_of_fmap in Hin as (u1 & -> & Hin).
    destruct (decide (Chat.User.id u1 = who)) as [|Hne]; [done|by destruct Hne].
  - intros u Hin Hne. split; apply list_elem_of_fmap; exists u;
      (split; [by rewrite decide_False|done]).
  - done.
Qed.

Lemma chat_presence_witness :
  Chat.User.mk "u2" "Bob" (Some true)
    ∈ Chat.users (Chat.handleData None (user_online "u2") sample_presence_state)
  ∧ map Chat.User.is_online
      (Chat.users (Chat.handleData None (user_online "u2") sample_presence_state))
    = [Some true; None]
  ∧ map Chat.User.is_online
      (Chat.users
         (Chat.handleData None (user_offline "u2")
            (Chat.handleData None (user_online "u2") sample_presence_state)))
    = [Some false; None].
Proof.
  destruct (chat_presence_updates_flag None "u2" sample_presence_state)
    as (_ & _ & Hon & _).
  assert (Chat.User.mk "u2" "Bob" (Some true)
            ∈ Chat.users (Chat.handleData None (user_online "u2") sample_presence_state))
    as Hin by (by left).
  pose proof (Hon _ Hin eq_refl) as Honline.
  split; [exact Hin|]. split; reflexivity.
Defined.

(** ** The Chat component: live messages *)

Lemma appendUnlessPresent_present message (prev : list RawMessage.t) :
  RawMessage.id message ∈ map RawMessage.id prev →
  Chat.appendUnlessPresent message prev = prev.
Proof.
  intros Hin. unfold Chat.appendUnlessPresent.
  by rewrite (proj2 (hasMessage_spec _ _) Hin).
Qed.

(** A live message that arrives a second time leaves the message list as it
    is, and so does a message whose identifier is already in the list, even
    when its content differs: the first message with an identifier stays.
    A new identifier is put at the end of the list. *)
Theorem chat_live_message_first_wins uid message st :
  let st' := Chat.handleData uid (chat_message (Some message)) st in
  Chat.messages (Chat.handleData uid (chat_message (Some message)) st')
  = Chat.messages st'
  ∧ (∀ other, RawMessage.id other = RawMessage.id message →
              Chat.messages (Chat.handleData uid (chat_message (Some other)) st')
              = Chat.messages st')
  ∧ (RawMessage.id message ∉ map RawMessage.id (Chat.messages st) →
     Chat.messages st' = Chat.messages st ++ [message])
  ∧ (RawMessage.id message ∈ map RawMessage.id (Chat.messages st) →
     Chat.messages st' = Chat.messages st).
Proof.
  intros st'. subst st'. simpl. split; [|split; [|split]].
  - apply appendUnlessPresent_present, appendUnlessPresent_elem.
  - intros other Hid. apply appendUnlessPresent_present. rewrite Hid.
    apply appendUnlessPresent_elem.
  - intros Hnot. unfold Chat.appendUnlessPresent.
    destruct (Chat.hasMessage _ _) eqn:Hhas; [|done].
    by apply hasMessage_spec in Hhas.
  - apply appendUnlessPresent_present.
Qed.

Lemma chat_live_message_witness :
  ("m3" ∉ map RawMessage.id (Chat.messages sample_chat_state))
  ∧ ("m1" ∈ map RawMessage.id (Chat.messages sample_chat_state))
  ∧ map RawMessage.content
      (Chat.messages
         (Chat.handleData (Some "u1")
            (chat_message (Some (sample_raw "m1" "u2" "edited text")))
            sample_chat_state)) = ["hello"]
  ∧ map RawMessage.id
      (Chat.messages
         (Chat.handleData (Some "u1")
            (chat_message (Some (sample_raw "m3" "u2" "ping"))) sample_chat_state))
    = ["m1"; "m3"].
Proof.
  assert ("m3" ∉ map RawMessage.id (Chat.messages sample_chat_state)) as Hnot.
  { simpl. intros Hin. apply list_elem_of_singleton in Hin. discriminate. }
  assert ("m1" ∈ map RawMessage.id (Chat.messages sample_chat_state)) as Hin
    by (simpl; by left).
  destruct (chat_live_message_first_wins (Some "u1")
              (sample_raw "m1" "u2" "edited text") sample_chat_state)
    as (_ & _ & _ & Hkeep).
  destruct (chat_live_message_first_wins (Some "u1")
              (sample_raw "m3" "u2" "ping") sample_chat_state)
    as (_ & _ & Hnew & _).
  split; [exact Hnot|]. split; [exact Hin|]. split.
  - by rewrite (Hkeep Hin).
  - by rewrite (Hnew Hnot).
Defined.

(** A live message updates the last message and the last activity of the
    conversations with its [conversation_id] and of no other; the
    conversations, their identifiers, names and unread counts stay. *)
Theorem chat_live_message_updates_conversation uid message st :
  let st' := Chat.handleData uid (chat_message (Some message)) st in
  map Chat.Conversation.id (Chat.conversations st')
  = map Chat.Conversation.id (Chat.conversations st)
  ∧ map Chat.Conversation.unread_count (Chat.conversations st')
    = map Chat.Conversation.unread_count (Chat.conversations st)
  ∧ (∀ conv, conv ∈ Chat.conversations st' →
             Some (Chat.Conversation.id conv) = RawMessage.conversation_id message →
             Chat.Conversation.last_message conv = Some message
             ∧ Chat.Conversation.last_activity conv = RawMessage.created_at message)
  ∧ (∀ conv, conv ∈ Chat.conversations st →
             Some (Chat.Conversation.id conv) ≠ RawMessage.conversation_id message →
             conv ∈ Chat.conversations st').
Proof.
  intros st'. subst st'. simpl. split; [|split; [|split]].
  - rewrite map_map. apply map_ext. intros conv. by destruct (decide _).
  - rewrite map_map. apply map_ext. intros conv. by destruct (decide _).
  - intros conv Hin Hid. apply list_elem_of_fmap in Hin as (conv0 & -> & _).
    destruct (decide (Some (Chat.Conversation.id conv0)
                      = RawMessage.conversation_id message)) as [|Hne];
      [done|by destruct Hne].
  - intros conv Hin Hne. apply list_elem_of_fmap. exists conv.
    split; [by rewrite decide_False|done].
Qed.

Lemma chat_conversation_witness :
  Chat.Conversation.mk "c1" "General" (Some (sample_raw "m3" "u2" "ping"))
    (Some "2024-01-01T00:00:00.000Z") 0
    ∈ Chat.conversations
        (Chat.handleData None (chat_message (Some (sample_raw "m3" "u2" "ping")))
           sample_conversation_state)
  ∧ map Chat.Conversation.last_message
      (Chat.conversations
         (Chat.handleData None (chat_message (Some (sample_raw "m3" "u2" "ping")))
            sample_conversation_state))
    = [Some (sample_raw "m3" "u2" "ping"); None]
  ∧ (∀ conv,
       conv ∈ Chat.conversations
                (Chat.handleData None
                   (chat_message (Some (sample_raw "m3" "u2" "ping")))
                   sample_conversation_state) →
       Some (Chat.Conversation.id conv)
       = RawMessage.conversation_id (sample_raw "m3" "u2" "ping") →
       Chat.Conversation.last_message conv = Some (sample_raw "m3" "u2" "ping")).
Proof.
  pose proof (chat_live_message_updates_conversation None
                (sample_raw "m3" "u2" "ping") sample_conversation_state) as H.
  cbv zeta in H. destruct H as (_ & _ & Hlast & _).
  split; [by left|]. split; [reflexivity|].
  exact (λ conv Hin Hid, proj1 (Hlast conv Hin Hid)).
Defined.

(** ** The EnhancedChat component *)

(** A personal message is filed under the other party: under its recipient
    when the current user sent it, under its sender when somebody else did,
    and under the key [undefined] when the current user sent it without a
    recipient; the chats with everybody else and the team messages stay.
    Nothing looks for duplicates: a team message that is delivered twice is
    in the list twice. *)
Theorem enhanced_chat_files_messages cid message st :
  let st' := EnhancedChat.handleMessage cid (Some (new_personal_message message)) st in
  (∀ recipient,
     RawMessage.sender_id message = Some cid →
     RawMessage.recipient_id message = Some recipient →
     EnhancedChat.personalChats st' !! recipient
     = Some (default [] (EnhancedChat.personalChats st !! recipient) ++ [message])
     ∧ ∀ other, other ≠ recipient →
                EnhancedChat.personalChats st' !! other
                = EnhancedChat.personalChats st !! other)
  ∧ (∀ sender,
       RawMessage.sender_id message = Some sender → sender ≠ cid →
       EnhancedChat.personalChats st' !! sender
       = Some (default [] (EnhancedChat.personalChats st !! sender) ++ [message])
       ∧ ∀ other, other ≠ sender →
                  EnhancedChat.personalChats st' !! other
                  = EnhancedChat.personalChats st !! other)
  ∧ (RawMessage.sender_id message = Some cid →
     RawMessage.recipient_id message = None →
     EnhancedChat.personalChats st' !! "undefined"
     = Some (default [] (EnhancedChat.personalChats st !! "undefined") ++ [message]))
  ∧ EnhancedChat.teamMessages st' = EnhancedChat.teamMessages st
  ∧ EnhancedChat.teamMessages
      (EnhancedChat.handleMessage cid (Some (new_team_message message))
         (EnhancedChat.handleMessage cid (Some (new_team_message message)) st))
    = EnhancedChat.teamMessages st ++ [message; message].
Proof.
  intros st'. subst st'. unfold EnhancedChat.handleMessage.
  split; [|split; [|split; [|split]]].
  - intros recipient Hs Hr. rewrite decide_True by done. rewrite Hr.
    cbn [default EnhancedChat.personalChats]. split; [apply lookup_insert_eq|].
    intros other Hne. by apply lookup_insert_ne.
  - intros sender Hs Hne. rewrite decide_False by congruence. rewrite Hs.
    cbn [default EnhancedChat.personalChats]. split; [apply lookup_insert_eq|].
    intros other Hne'. by apply lookup_insert_ne.
  - intros Hs Hr. rewrite decide_True by done. rewrite Hr.
    cbn [default EnhancedChat.personalChats]. apply lookup_insert_eq.
  - done.
  - cbn [EnhancedChat.teamMessages]. by rewrite <- app_assoc.
Qed.

Lemma enhanced_chat_witness :
  RawMessage.sender_id (sample_personal "u1" "u2") = Some "u1"
  ∧ RawMessage.sender_id (sample_personal "u3" "u1") = Some "u3"
  ∧ "u3" ≠ "u1"
  ∧ EnhancedChat.personalChats
      (EnhancedChat.handleMessage "u1"
         (Some (new_personal_message (sample_personal "u1" "u2")))
         (EnhancedChat.mkState [] ∅)) !! "u2"
    = Some [sample_personal "u1" "u2"]
  ∧ EnhancedChat.personalChats
      (EnhancedChat.handleMessage "u1"
         (Some (new_personal_message (sample_personal "u3" "u1")))
         (EnhancedChat.mkState [] ∅)) !! "u3"
    = Some [sample_personal "u3" "u1"].
Proof.
  assert ("u3" ≠ "u1") as Hne by discriminate.
  destruct (enhanced_chat_files_messages "u1" (sample_personal "u1" "u2")
              (EnhancedChat.mkState [] ∅)) as (Hmine & _).
  destruct (enhanced_chat_files_messages "u1" (sample_personal "u3" "u1")
              (EnhancedChat.mkState [] ∅)) as (_ & Htheirs & _).
  split; [reflexivity|]. split; [reflexivity|]. split; [exact Hne|]. split.
  - exact (proj1 (Hmine "u2" eq_refl eq_refl)).
  - exact (proj1 (Htheirs "u3" eq_refl Hne)).
Defined.

(** ** Installing the chat handler more than once *)

Lemma connectSocketTimes_open n uid toast ws :
  WebSocket.readyState ws = OPEN →
  WebSocket.readyState (connectSocketTimes n uid toast ws) = OPEN
  ∧ WebSocket.listeners (connectSocketTimes n uid toast ws) = WebSocket.listeners ws.
Proof.
  intros Hopen. induction n as [|n [IH1 IH2]]; simpl; [done|].
  unfold connectSocket. by rewrite decide_True.
Qed.

Lemma connectSocketTimes_run n uid toast ws clk event w :
  WebSocket.readyState ws = OPEN →
  match WebSocket.onmessage (connectSocketTimes n uid toast ws) with
  | Some h => runHandler h clk event w
  | None => w
  end
  = Nat.iter n (chatOnMessage uid toast clk event)
      (match WebSocket.onmessage ws with
       | Some h => runHandler h clk event w
       | None => w
       end).
Proof.
  intros Hopen. induction n as [|n IH]; simpl; [done|].
  destruct (connectSocketTimes_open n uid toast ws Hopen) as [Hready _].
  unfold connectSocket. rewrite decide_True by done. simpl.
  by rewrite <- IH.
Qed.

Lemma chatOnMessage_pushed uid clk message w :
  RawMessage.sender_id message ≠ uid →
  let w' := chatOnMessage uid true clk (Some (chat_message (Some message))) w in
  length (App.toasts (app w')) = length (App.toasts (app w)) + 1
  ∧ Chat.messages (chat w')
    = Chat.appendUnlessPresent message (Chat.messages (chat w)).
Proof.
  intros Hsender. cbv zeta. unfold chatOnMessage.
  rewrite bool_decide_eq_true_2 by done.
  cbn [andb app chat App.showToast App.setToasts App.toasts].
  rewrite length_app. split; [done|]. reflexivity.
Qed.

Lemma chatOnMessage_iter n uid clk message w :
  RawMessage.sender_id message ≠ uid →
  let w' := Nat.iter n (chatOnMessage uid true clk (Some (chat_message (Some message)))) w in
  length (App.toasts (app w')) = length (App.toasts (app w)) + n
  ∧ (0 < n → Chat.messages (chat w')
             = Chat.appendUnlessPresent message (Chat.messages (chat w)))
  ∧ (n = 0 → w' = w).
Proof.
  intros Hsender. cbv zeta. induction n as [|n (IHt & IHm & IH0)].
  { cbn [Nat.iter nat_rect]. split; [lia|]. split; [lia|done]. }
  rewrite Nat.iter_succ.
  set (wn := Nat.iter n
               (chatOnMessage uid true clk (Some (chat_message (Some message)))) w)
    in *.
  destruct (chatOnMessage_pushed uid clk message wn Hsender) as [Ht Hm].
  split; [lia|]. split; [|lia]. intros _. rewrite Hm.
  destruct n as [|n]; [by rewrite IH0|].
  rewrite IHm by lia. apply appendUnlessPresent_present, appendUnlessPresent_elem.
Qed.

(** Each further call of [connectSocket] on the open socket wraps the
    handler once more: after [n] calls an event runs through the previous
    [onmessage] once and then through the chat handler [n] times.  A message
    of another user therefore shows [n] toasts from the Chat component,
    while it is put into the message list only once. *)
Theorem repeated_connectSocket_repeats_toasts n uid toast ws clk :
  WebSocket.readyState ws = OPEN →
  (∀ event w,
     dispatch (connectSocketTimes n uid toast ws) clk event w
     = foldl (λ w h, runHandler h clk event w)
         (Nat.iter n (chatOnMessage uid toast clk event)
            (match WebSocket.onmessage ws with
             | Some h => runHandler h clk event w
             | None => w
             end))
         (WebSocket.listeners ws))
  ∧ (∀ message w,
       toast = true → RawMessage.sender_id message ≠ uid →
       WebSocket.onmessage ws = None → WebSocket.listeners ws = [] →
       let w' := dispatch (connectSocketTimes n uid toast ws) clk
                   (Some (chat_message (Some message))) w in
       length (App.toasts (app w')) = length (App.toasts (app w)) + n
       ∧ (0 < n → Chat.messages (chat w')
                  = Chat.appendUnlessPresent message (Chat.messages (chat w)))).
Proof.
  intros Hopen.
  assert (∀ event w,
     dispatch (connectSocketTimes n uid toast ws) clk event w
     = foldl (λ w h, runHandler h clk event w)
         (Nat.iter n (chatOnMessage uid toast clk event)
            (match WebSocket.onmessage ws with
             | Some h => runHandler h clk event w
             | None => w
             end))
         (WebSocket.listeners ws)) as Hdispatch.
  { intros event w. unfold dispatch, registered.
    destruct (connectSocketTimes_open n uid toast ws Hopen) as [_ ->].
    rewrite foldl_app. f_equal.
    rewrite <- (connectSocketTimes_run n uid toast ws clk event w Hopen).
    by destruct (WebSocket.onmessage (connectSocketTimes n uid toast ws)). }
  split; [exact Hdispatch|].
  intros message w -> Hsender Hnone Hnil w'. subst w'.
  rewrite Hdispatch, Hnone, Hnil. simpl.
  destruct (chatOnMessage_iter n uid clk message w Hsender) as (Ht & Hm & _).
  by split.
Qed.

Lemma repeated_connectSocket_witness :
  WebSocket.readyState sample_bare_socket = OPEN
  ∧ RawMessage.sender_id (sample_raw "m3" "u2" "ping") ≠ Some "u1"
  ∧ length
      (App.toasts
         (app (dispatch (connectSocketTimes 3 (Some "u1") true sample_bare_socket)
                 sample_clock (Some (chat_message (Some (sample_raw "m3" "u2" "ping"))))
                 sample_world))) = 3
  ∧ map RawMessage.id
      (Chat.messages
         (chat (dispatch (connectSocketTimes 3 (Some "u1") true sample_bare_socket)
                  sample_clock (Some (chat_message (Some (sample_raw "m3" "u2" "ping"))))
                  sample_world))) = ["m1"; "m3"].
Proof.
  assert (RawMessage.sender_id (sample_raw "m3" "u2" "ping") ≠ Some "u1") as Hsender
    by discriminate.
  destruct (repeated_connectSocket_repeats_toasts 3 (Some "u1") true
              sample_bare_socket sample_clock eq_refl) as [_ Hpush].
  destruct (Hpush (sample_raw "m3" "u2" "ping") sample_world eq_refl Hsender
              eq_refl eq_refl) as [Htoasts Hmessages].
  split; [reflexivity|]. split; [exact Hsender|]. split; [exact Htoasts|].
  rewrite Hmessages by lia. reflexivity.
Defined.

(** ** Reconnecting *)

(** Without an access token [connectWebSocket] leaves the socket reference
    alone.  With one, it puts a fresh socket there that has the
    application's handler and no other: whatever had been installed on the
    previous socket, events on the new one no longer reach the Chat and the
    EnhancedChat component. *)
Theorem reconnect_drops_other_handlers token wsRef :
  (token = "" → connectWebSocket token wsRef = wsRef)
  ∧ (token ≠ "" →
     ∃ ws, connectWebSocket token wsRef = Some ws
           ∧ invokedOnEvent ws = [AppHandler]
           ∧ ∀ clk event w,
               chat (dispatch ws clk event w) = chat w
               ∧ enhanced (dispatch ws clk event w) = enhanced w
               ∧ app (dispatch ws clk event w) = App.onmessage clk event (app w)).
Proof.
  unfold connectWebSocket. split.
  - intros ->. by rewrite decide_True.
  - intros Hne. rewrite decide_False by done. eexists. split; [done|].
    split; [done|]. by intros clk event w.
Qed.

Lemma reconnect_witness :
  "token" ≠ ""
  ∧ (invokedOnEvent <$>
       connectWebSocket "token"
         (Some (addMessageListener "u1" (connectSocket (Some "u1") true sample_socket))))
    = Some [AppHandler]
  ∧ connectWebSocket "" (Some sample_socket) = Some sample_socket.
Proof.
  assert ("token" ≠ "") as Hne by discriminate.
  destruct (reconnect_drops_other_handlers "token"
              (Some (addMessageListener "u1"
                       (connectSocket (Some "u1") true sample_socket))))
    as [_ Hnew].
  destruct (reconnect_drops_other_handlers "" (Some sample_socket)) as [Hnone _].
  destruct (Hnew Hne) as (ws & Heq & Hinv & _).
  split; [exact Hne|]. split; [by rewrite Heq, <- Hinv|exact (Hnone eq_refl)].
Defined.

(** ** Creating conversations in the Chat component *)

Lemma uniqueInOrder_fold (items seen : list string) :
  NoDup seen →
  let r := foldl (λ seen x, if decide (x ∈ seen) then seen else seen ++ [x])
             seen items in
  NoDup r ∧ (∀ x, x ∈ r ↔ x ∈ seen ∨ x ∈ items) ∧ length seen ≤ length r.
Proof.
  revert seen. induction items as [|a items IH]; intros seen Hnd; simpl.
  { split; [done|]. split; [|lia]. intros x. rewrite elem_of_nil. tauto. }
  destruct (decide (a ∈ seen)) as [Hin|Hnot].
  - destruct (IH seen Hnd) as (H1 & H2 & H3). split; [done|]. split; [|done].
    intros x. rewrite H2, elem_of_cons. split; [tauto|].
    intros [?|[->|?]]; auto.
  - assert (NoDup (seen ++ [a])) as Hnd'.
    { apply NoDup_app. split; [done|]. split; [|apply NoDup_singleton].
      intros x Hx Hx'. apply list_elem_of_singleton in Hx'. by subst. }
    destruct (IH (seen ++ [a]) Hnd') as (H1 & H2 & H3). split; [done|]. split.
    + intros x. rewrite H2, elem_of_app, !elem_of_cons, elem_of_nil. tauto.
    + rewrite length_app in H3. simpl in H3. lia.
Qed.

(** The participants that [createConversation] posts are the requested ones
    and the current user, each once.  With one requested user other than
    the current user they are that user and the current user, and the type
    is [direct]; the type is [team] only when nobody but the current user
    was requested, [direct] exactly for two participants and [group] exactly
    for more. *)
Theorem createConversation_request (me : string) (participantIds : list string) :
  let participants := Chat.createParticipants me participantIds in
  NoDup participants
  ∧ (∀ x, x ∈ participants ↔ x = me ∨ x ∈ participantIds)
  ∧ (Chat.conversationType participants = "direct" ↔ length participants = 2)
  ∧ (Chat.conversationType participants = "group" ↔ 2 < length participants)
  ∧ (Chat.conversationType participants = "team" →
     ∀ x, x ∈ participantIds → x = me)
  ∧ (∀ other, other ≠ me →
       Chat.createParticipants me [other] = [other; me]
       ∧ Chat.conversationType (Chat.createParticipants me [other]) = "direct").
Proof.
  intros participants. subst participants. unfold Chat.createParticipants.
  destruct (uniqueInOrder_fold (participantIds ++ [me]) [] (NoDup_nil_2))
    as (Hnd & Hin & _).
  fold (Chat.uniqueInOrder (participantIds ++ [me])) in Hnd, Hin.
  assert (∀ x, x ∈ Chat.uniqueInOrder (participantIds ++ [me])
               ↔ x = me ∨ x ∈ participantIds) as Helem.
  { intros x. rewrite Hin, elem_of_app, elem_of_nil, list_elem_of_singleton. tauto. }
  split; [exact Hnd|]. split; [exact Helem|].
  unfold Chat.conversationType. split; [|split; [|split]].
  - repeat case_decide; split; intros; try done; lia.
  - repeat case_decide; split; intros; try done; lia.
  - intros Hteam x Hx.
    set (l := Chat.uniqueInOrder (participantIds ++ [me])) in *.
    assert (length l < 2) as Hlen by (repeat case_decide; try done; lia).
    assert (me ∈ l) as Hme by (apply Helem; by left).
    assert (x ∈ l) as Hxl by (apply Helem; by right).
    destruct l as [|a [|b l]]; simpl in Hlen; [by inversion Hme| |lia].
    apply list_elem_of_singleton in Hme, Hxl. congruence.
  - intros other Hne. unfold Chat.uniqueInOrder. simpl.
    rewrite decide_False by (rewrite list_elem_of_singleton; congruence).
    done.
Qed.

Lemma createConversation_request_witness :
  "u2" ≠ "u1"
  ∧ Chat.createParticipants "u1" ["u2"] = ["u2"; "u1"]
  ∧ Chat.createParticipants "u1" ["u2"; "u1"; "u3"; "u2"] = ["u2"; "u1"; "u3"]
  ∧ Chat.conversationType (Chat.createParticipants "u1" ["u1"]) = "team".
Proof.
  assert ("u2" ≠ "u1") as Hne by discriminate.
  destruct (createConversation_request "u1" ["u2"]) as (_ & _ & _ & _ & _ & Hdirect).
  split; [exact Hne|]. split; [exact (proj1 (Hdirect "u2" Hne))|].
  split; reflexivity.
Defined.

(** ** Finding or creating a conversation *)

Lemma isDirectConversationOf_spec pid uid c :
  App.isDirectConversationOf pid uid c = true
  ↔ App.ConversationInfo.type c = Some "direct"
    ∧ pid ∈ default [] (App.ConversationInfo.participants c)
    ∧ ∃ u, uid = Some u ∧ u ∈ default [] (App.ConversationInfo.participants c).
Proof.
  unfold App.isDirectConversationOf, App.includes.
  case_bool_decide as Hty.
  - split; [done|]. by intros (? & _).
  - rewrite andb_true_iff, bool_decide_eq_true.
    destruct uid as [u|].
    + rewrite bool_decide_eq_true. split.
      * intros [? ?]. eauto.
      * intros (_ & ? & u' & ? & ?). by simplify_eq.
    + split; [by intros [_ ?]|]. by intros (_ & _ & u & ? & _).
Qed.

(** [getOrCreateConversation] returns an existing conversation only when the
    fetched list has one of the wanted kind (the team conversation, or a
    direct conversation whose participants include both the peer and the
    current user) and then posts nothing and changes nothing; it creates a
    conversation only when the list has none, for a peer with exactly the
    current user and the peer as participants; and when either request
    fails it returns no conversation, and its [catch] block adds one error
    toast to the state that [apiCall] has left.  On an answer with status
    401 that state is the one without user and session keys, with the
    warning toast before the error toast. *)
Theorem getOrCreateConversation_decision clk user users participantId
    listResult createResult st :
  let wanted c :=
    if truthy participantId
    then App.isDirectConversationOf (default "" participantId)
           (App.Member.id <$> user) c
    else App.isTeamConversation c in
  let result := App.getOrCreateConversation clk user users participantId
                  listResult createResult st in
  (∀ clk0,
     let expired := App.getOrCreateConversation clk user users participantId
                      (Rejected App.sessionExpiredError) createResult
                      (App.sessionExpired clk0 st) in
     expired.1 = App.NoConversation
     ∧ App.user expired.2 = None
     ∧ App.toasts expired.2
       = App.toasts st
         ++ [App.Toast.mk (nowMs clk0) App.warning "Session Expired"
               "Please login again";
             App.Toast.mk (nowMs clk) App.error "Error"
               "Session expired. Please login again."]
     ∧ App.localStorage expired.2
       = delete "organization"
           (delete "user" (delete "accessToken" (App.localStorage st))))
  ∧
  match result.1 with
  | App.Existing id =>
      result.2 = st
      ∧ ∃ response c, listResult = Resolved response
          ∧ c ∈ App.responseConversations response
          ∧ wanted c = true ∧ id = App.ConversationInfo.id c
  | App.Created body id =>
      result.2 = st
      ∧ (∃ response, listResult = Resolved response
           ∧ ∀ c, c ∈ App.responseConversations response → wanted c = false)
      ∧ (∃ created, createResult = Resolved created
                    ∧ id = App.ConversationInfo.id created)
      ∧ (truthy participantId = true →
         App.CreateBody.type body = "direct"
         ∧ App.CreateBody.participants body = [App.Member.id <$> user; participantId])
      ∧ (truthy participantId = false →
         App.CreateBody.type body = "team"
         ∧ App.CreateBody.participants body = App.orgUserIds user users)
  | App.NoConversation =>
      (∃ e, (listResult = Rejected e
             ∨ ((∃ response, listResult = Resolved response
                   ∧ ∀ c, c ∈ App.responseConversations response → wanted c = false)
                ∧ createResult = Rejected e))
            ∧ result.2
              = App.showToast clk App.error "Error"
                  (errorMessageOr e "Failed to load conversation") st)
  end.
Proof.
  intros wanted result. subst result. split.
  { intros clk0 expired. subst expired.
    unfold App.getOrCreateConversation, App.sessionExpired, App.showToast.
    cbn [fst snd]. state_field. rewrite <- app_assoc. by repeat split. }
  unfold App.getOrCreateConversation.
  destruct listResult as [response|e]; [|simpl; eauto].
  assert ((if truthy participantId
           then List.find (App.isDirectConversationOf (default "" participantId)
                             (App.Member.id <$> user))
                  (App.responseConversations response)
           else List.find App.isTeamConversation (App.responseConversations response))
          = List.find wanted (App.responseConversations response)) as ->.
  { unfold wanted. by destruct (truthy participantId). }
  destruct (List.find wanted (App.responseConversations response)) as [c|] eqn:Hfind.
  - simpl. split; [done|]. apply find_some in Hfind as [Hin Hw].
    exists response, c. repeat split; try done. by apply list_elem_of_In.
  - assert (∀ c, c ∈ App.responseConversations response → wanted c = false) as Hnone.
    { intros c Hin. apply (find_none _ _ Hfind). by apply list_elem_of_In. }
    destruct createResult as [created|e]; simpl.
    + split; [done|]. split; [eauto|]. split; [eauto|].
      split; intros Ht; rewrite Ht; done.
    + exists e. split; [|done]. right. eauto.
Qed.

Lemma getOrCreateConversation_examples :
  (App.getOrCreateConversation sample_clock (Some sample_member) [sample_member]
     (Some "u2") (Resolved sample_conversations)
     (Rejected (ErrorObject "not needed")) sample_state).1 = App.Existing "c8"
  ∧ (App.getOrCreateConversation sample_clock (Some sample_member) [sample_member]
       None (Resolved sample_conversations)
       (Rejected (ErrorObject "not needed")) sample_state).1 = App.Existing "c0"
  ∧ (App.getOrCreateConversation sample_clock (Some sample_member) [sample_member]
       (Some "u4") (Resolved sample_conversations)
       (Resolved (App.ConversationInfo.mk "c9" (Some "direct") (Some ["u1"; "u4"])))
       sample_state).1
    = App.Created (App.CreateBody.mk "direct" None [Some "u1"; Some "u4"]) "c9".
Proof. repeat split. Qed.

(** ** Logging out *)

(** Logging out forgets the socket, the user, the user list and all
    notifications, removes the three session keys from [localStorage] and
    leaves the farewell toast as the only toast.  It does not touch the chat:
    the stored watermark of every conversation, the unread message counter,
    the message lists, the selected conversation and the popup flag are what
    they were before. *)
Theorem logout_keeps_chat_state clk wsRef st :
  let out := logout clk wsRef st in
  out.1 = None
  ∧ App.user out.2 = None ∧ App.users out.2 = [] ∧ App.notifications out.2 = []
  ∧ App.toasts out.2
    = [App.Toast.mk (nowMs clk) App.info "Logged Out" "See you next time!"]
  ∧ App.localStorage out.2 !! "accessToken" = None
  ∧ App.localStorage out.2 !! "user" = None
  ∧ App.localStorage out.2 !! "organization" = None
  ∧ (∀ c, watermark c out.2 = watermark c st)
  ∧ App.unreadMessagesCount out.2 = App.unreadMessagesCount st
  ∧ App.chatMessages out.2 = App.chatMessages st
  ∧ App.conversations out.2 = App.conversations st
  ∧ App.selectedConversationId out.2 = App.selectedConversationId st
  ∧ App.showChatPopup out.2 = App.showChatPopup st.
Proof.
  intros out. subst out. simpl. repeat split.
  - rewrite lookup_delete_ne by done. rewrite lookup_delete_ne by done.
    apply lookup_delete_eq.
  - rewrite lookup_delete_ne by done. apply lookup_delete_eq.
  - apply lookup_delete_eq.
  - intros c. unfold watermark, App.getItem. simpl.
    destruct (lastSeenKey_not_session_key c) as (H1 & H2 & H3).
    by rewrite !lookup_delete_ne by done.
Qed.

(** ** Invariants along sequences of operations *)

Lemma load_user clk c result st :
  App.user (App.loadConversationMessages clk c result st) = App.user st.
Proof.
  destruct result as [response|e]; [|done].
  unfold App.loadConversationMessages. simpl.
  repeat (case_match; simpl; try done).
Qed.

(** An interval poll whose closure holds the current values is the reconcile
    that a handler of the current render calls. *)
Lemma poll_from_current_render clk c result st :
  step st (Poll clk (Closure.mk (App.showChatPopup st) (App.user st)) c result)
  = step st (Reconcile clk c result).
Proof.
  cbn [step]. unfold calledFrom.
  assert (withClosure (Closure.mk (App.showChatPopup st) (App.user st)) st = st)
    as -> by (by destruct st).
  apply state_eq; try reflexivity; cbn [withClosure App.user App.showChatPopup
    Closure.user Closure.showChatPopup].
  - by rewrite load_user.
  - by rewrite load_showChatPopup.
Qed.

Lemma step_keeps_cache c op st :
  keeps_list c op →
  App.conversations st !! c = Some (App.chatMessages st) →
  App.conversations (step st op) !! c = Some (App.chatMessages (step st op)).
Proof.
  intros Hop Hinv.
  destruct op as [clk c' [response|e]|clk event|clk c' [response|e]| |id
                 |clk seen c' [response|e]| ];
    cbn [step keeps_list] in *.
  - subst c'. destruct (load_stores_formatted clk c response st) as [-> ->]. done.
  - done.
  - unfold App.onmessage. destruct event as [[[m|]| | | | | | |]|]; try done.
    by case_bool_decide.
  - subst c'. unfold App.sendMessageAPI. state_field.
    rewrite lookup_insert_eq, Hinv. done.
  - done.
  - unfold App.toggleChatPopup. by destruct (App.showChatPopup st).
  - rewrite markNotificationAsRead_unfold.
    by destruct (opensConversation id st).
  - subst c'. unfold calledFrom.
    change (App.conversations
              (App.loadConversationMessages clk c (Resolved response)
                 (withClosure seen st)) !! c
            = Some (App.chatMessages
                      (App.loadConversationMessages clk c (Resolved response)
                         (withClosure seen st)))).
    destruct (load_stores_formatted clk c response
                (withClosure seen st)) as [-> ->]. done.
  - done.
  - done.
Qed.

(** After a reconcile of conversation [c], the cached list of [c] and the
    shown list are the same list, and they stay the same through any
    sequence of sends to [c], further reconciles and polls of [c], live
    events, clicks on the chat button, on the close button and on
    notifications, and failed requests. *)
Theorem cached_list_is_shown_list clk c response ops st :
  Forall (keeps_list c) ops →
  let st' := run ops (App.loadConversationMessages clk c (Resolved response) st) in
  App.conversations st' !! c = Some (App.chatMessages st').
Proof.
  intros Hops st'. subst st'.
  assert (App.conversations
            (App.loadConversationMessages clk c (Resolved response) st) !! c
          = Some (App.chatMessages
                    (App.loadConversationMessages clk c (Resolved response) st)))
    as Hinit.
  { destruct (load_stores_formatted clk c response st) as [-> ->]. done. }
  revert Hinit. generalize (App.loadConversationMessages clk c (Resolved response) st).
  induction ops as [|op ops IH]; intros s Hinv; [done|].
  apply Forall_cons in Hops as [Hop Hops]. unfold run. cbn [foldl].
  apply (IH Hops). by apply step_keeps_cache.
Qed.

Lemma cached_list_witness :
  Forall (keeps_list "c1") sample_cache_ops
  ∧ App.conversations
      (run sample_cache_ops
         (App.loadConversationMessages sample_clock "c1" (Resolved sample_history)
            sample_closed_state)) !! "c1"
    = Some (App.chatMessages
              (run sample_cache_ops
                 (App.loadConversationMessages sample_clock "c1"
                    (Resolved sample_history) sample_closed_state))).
Proof.
  assert (Forall (keeps_list "c1") sample_cache_ops) as Hops
    by (repeat constructor).
  split; [exact Hops|].
  exact (cached_list_is_shown_list sample_clock "c1" sample_history
           sample_cache_ops sample_closed_state Hops).
Defined.
